(** * Preview synchronisation core: snapshot diffing, module collection,
      execution requests and the navigation history.

    A shallow embedding of
    [packages/common/src/components/Preview/index.tsx] together with
    the properties its specification states about it.

    Modelling conventions.
    - A JavaScript object used as a dictionary ([IModulesByPath],
      [extraModules]) is a [gmap string _].  [o[p]] is the lookup
      [o !! p]; a missing key reads [undefined], which is falsy, and
      every stored entry is an object, which is truthy.  Keys are file
      paths, so no key collides with a property inherited from
      [Object.prototype].
    - [null | string] is [option string]; an optional boolean field is
      [option bool] ([None] for [undefined]).
    - A JavaScript array is a [list]; indices and the history position
      are integers ([Z]), since [POP] may add a negative delta.
    - One component method is one function on the component state; the
      [setState] calls of one method are applied at once, so the
      [prevState] handed to an updater is the state the method read.
    - What a method does to the outside (messages dispatched to the
      frame, socket emissions, callbacks) is returned as a list of
      [Effect]s, in program order. *)

From stdpp Require Import gmap strings list fin_maps.
From Stdlib Require Import ZArith Ascii.

Local Open Scope string_scope.
Local Open Scope list_scope.
Local Open Scope Z_scope.

(** ** Snapshots *)

(** [{ path: string; code: null | string; isBinary?: boolean }] *)
Record ModuleEntry := mkEntry {
  path : string;
  code : option string;
  isBinary : option bool;
}.

#[global] Instance ModuleEntry_eq_dec : EqDecision ModuleEntry.
Proof. solve_decision. Defined.

(** [interface IModulesByPath { [path: string]: ... }] *)
Abbreviation IModulesByPath := (gmap string ModuleEntry).

(** [Object.keys(o)] *)
Definition keys {V} (o : gmap string V) : list string := (map_to_list o).*1.

Module SnapshotDiffer.

(** The entry [getDiff] writes for a path of [b] that is new or whose
    code changed: [{ code: b[p].code, path: p, isBinary: b[p].isBinary }]. *)
Definition changed_entry (p : string) (eb : ModuleEntry) : ModuleEntry :=
  {| code := code eb; path := p; isBinary := isBinary eb |}.

(** The entry written for a path of [a] that [b] lost:
    [{ path: p, code: null }]. *)
Definition tombstone (p : string) : ModuleEntry :=
  {| path := p; code := None; isBinary := None |}.

(** The predicate handed to [filter]: [a[p]] is missing, or its code
    differs ([!==]) from the code of [b[p]].  It is applied to keys of
    [b] only, so [b[p]] is there. *)
Definition differs (a b : IModulesByPath) (p : string) : bool :=
  match a !! p with
  | Some ea =>
      match b !! p with
      | Some eb => if decide (code ea = code eb) then false else true
      | None => false
      end
  | None => true
  end.

(** The body of the first [forEach], run on keys of [b]:
    [diff[p] = { code: b[p].code, path: p, isBinary: b[p].isBinary }]. *)
Definition put_changed (b : IModulesByPath) (diff : IModulesByPath) (p : string)
  : IModulesByPath :=
  match b !! p with
  | Some eb => <[p := changed_entry p eb]> diff
  | None => diff
  end.

(** The body of the second [forEach]: [if (!b[p]) diff[p] = tombstone]. *)
Definition put_removed (b : IModulesByPath) (diff : IModulesByPath) (p : string)
  : IModulesByPath :=
  match b !! p with
  | Some _ => diff
  | None => <[p := tombstone p]> diff
  end.

Definition getDiff (a b : IModulesByPath) : IModulesByPath :=
  let diff : IModulesByPath := ∅ in
  let diff := foldl (put_changed b) diff (List.filter (differs a b) (keys b)) in
  let diff := foldl (put_removed b) diff (keys a) in
  diff.

(** Modelled from the spec: what the receiver of a diff does with it
    is not part of this file; the specification describes it as
    "tombstones delete, others upsert". *)
Definition patch_entry (old new : option ModuleEntry) : option ModuleEntry :=
  match new with
  | Some e => match code e with None => None | Some _ => Some e end
  | None => old
  end.

Definition applyPatch (a diff : IModulesByPath) : IModulesByPath :=
  merge patch_entry a diff.

(** The entries of a snapshot that are not tombstones. *)
Definition live (m : IModulesByPath) : IModulesByPath :=
  filter (λ kv, code kv.2 ≠ None) m.

(** The specification's view of a snapshot: a path is mapped to its
    [code] and [isBinary]; the [path] field of an entry repeats the key
    and is not part of that view. *)
Definition content (e : ModuleEntry) : option string * option bool :=
  (code e, isBinary e).

Definition snapshot_of (m : IModulesByPath) : gmap string (option string * option bool) :=
  content <$> m.

(** Every entry carries its own key in its [path] field. *)
Definition keyed (m : IModulesByPath) : Prop :=
  map_Forall (λ p e, path e = p) m.

End SnapshotDiffer.

(** ** Navigation history *)

Module NavigationHistory.

(** [type State] of the component. *)
Record State := mkState {
  frameInitialized : bool;
  history : list string;
  historyPosition : Z;
  urlInAddressBar : string;
  url : option string;
  overlayMessage : option string;
  hibernated : bool;
  sseError : bool;
  showScreenshot : bool;
}.

(** [setState({ history, historyPosition, urlInAddressBar })] *)
Definition set_nav (h : list string) (pos : Z) (addr : string) (s : State) : State :=
  {| frameInitialized := frameInitialized s;
     history := h; historyPosition := pos; urlInAddressBar := addr;
     url := url s; overlayMessage := overlayMessage s;
     hibernated := hibernated s; sseError := sseError s;
     showScreenshot := showScreenshot s |}.

(** [setState({ showScreenshot })] *)
Definition set_showScreenshot (b : bool) (s : State) : State :=
  {| frameInitialized := frameInitialized s;
     history := history s; historyPosition := historyPosition s;
     urlInAddressBar := urlInAddressBar s;
     url := url s; overlayMessage := overlayMessage s;
     hibernated := hibernated s; sseError := sseError s;
     showScreenshot := b |}.

(** [setState({ frameInitialized: false, overlayMessage, sseError: true })] *)
Definition set_unrecoverable (message : string) (s : State) : State :=
  {| frameInitialized := false;
     history := history s; historyPosition := historyPosition s;
     urlInAddressBar := urlInAddressBar s;
     url := url s; overlayMessage := Some message;
     hibernated := hibernated s; sseError := true;
     showScreenshot := showScreenshot s |}.

(** [arr[i]]: [undefined] ([None]) outside of [0 .. length-1]. *)
Definition index {A} (arr : list A) (i : Z) : option A :=
  if decide (0 ≤ i) then arr !! Z.to_nat i else None.

(** How [Array.prototype.slice] reads one of its bounds: a negative
    bound counts from the end, and both are clamped to the array. *)
Definition relative (len i : Z) : Z :=
  if decide (i < 0) then Z.max (len + i) 0 else Z.min i len.

(** [arr.slice(start, end)] *)
Definition slice {A} (arr : list A) (start end_ : Z) : list A :=
  let len := Z.of_nat (length arr) in
  let k := relative len start in
  let final := relative len end_ in
  take (Z.to_nat (final - k)) (drop (Z.to_nat k) arr).

(** [arr.slice(start)] *)
Definition slice_from {A} (arr : list A) (start : Z) : list A :=
  slice arr start (Z.of_nat (length arr)).

(** [a || b] on strings: the empty string and [undefined] are falsy. *)
Definition or_else (a : option string) (b : string) : string :=
  match a with
  | Some s => if decide (s = "") then b else s
  | None => b
  end.

(** [commitUrl(url, action, diff)]: the state after the [setState] of
    the chosen case. *)
Definition commitUrl (url : string) (action : string) (diff : Z) (s : State) : State :=
  let history := history s in
  let historyPosition := historyPosition s in
  if decide (action = "POP") then
    let newPosition := historyPosition + diff in
    set_nav history newPosition url s
  else if decide (action = "REPLACE") then
    set_nav (slice history 0 historyPosition ++ [url] ++ slice_from history (historyPosition + 1))
            historyPosition url s
  else
    set_nav (slice history 0 (historyPosition + 1) ++ [url]) (historyPosition + 1) url s.

(** The url [handleRefresh] reloads:
    [history[historyPosition] || urlInAddressBar]. *)
Definition refreshUrl (s : State) : string :=
  or_else (index (history s) (historyPosition s)) (urlInAddressBar s).

(** The [setState] of [handleRefresh]. *)
Definition refreshed (s : State) : State :=
  let url := refreshUrl s in
  set_nav [url] 0 url s.

(** The [setState] of [sendUrl], done when the frame element exists. *)
Definition sent (s : State) : State :=
  let urlInAddressBar := urlInAddressBar s in
  set_nav [urlInAddressBar] 0 urlInAddressBar s.

(** The [setState] of [handleSandboxChange], followed by its callback,
    [handleRefresh]. *)
Definition sandboxChanged (url : string) (s : State) : State :=
  refreshed
    {| frameInitialized := frameInitialized s;
       history := [url]; historyPosition := 0; urlInAddressBar := url;
       url := NavigationHistory.url s; overlayMessage := None;
       hibernated := hibernated s; sseError := sseError s;
       showScreenshot := true |}.

(** The state the constructor builds, given the address it computed. *)
Definition initialState (address : string) : State :=
  {| frameInitialized := false;
     history := []; historyPosition := 0; urlInAddressBar := address;
     url := None; overlayMessage := None;
     hibernated := false; sseError := false; showScreenshot := true |}.

(** The transitions that commit a navigation state. *)
Inductive Transition :=
| Commit (url action : string) (diff : Z)
| Refresh
| SendUrl
| SandboxChange (url : string).

Definition step (s : State) (t : Transition) : State :=
  match t with
  | Commit url action diff => commitUrl url action diff s
  | Refresh => refreshed s
  | SendUrl => sent s
  | SandboxChange url => sandboxChanged url s
  end.

Definition run (s : State) (ts : list Transition) : State := foldl step s ts.

(** [n] successive [PUSH] notifications carrying the urls [us]. *)
Definition pushes (us : list string) : list Transition :=
  (λ u, Commit u "PUSH" 0) <$> us.

(** The invariant the data model states for a non-empty history. *)
Definition mirrors (s : State) : Prop :=
  0 ≤ historyPosition s < Z.of_nat (length (history s)) ∧
  index (history s) (historyPosition s) = Some (urlInAddressBar s).

(** A transition that cannot move the position off the entries: every
    transition but a [POP] whose target lies outside of the entries or
    whose url is not the entry found there. *)
Definition tracked (s : State) (t : Transition) : Prop :=
  match t with
  | Commit url action diff =>
      action = "POP" →
      index (history s) (historyPosition s + diff) = Some url
  | Refresh | SendUrl | SandboxChange _ => True
  end.

(** [tracked] along a whole run. *)
Fixpoint all_tracked (s : State) (ts : list Transition) : Prop :=
  match ts with
  | [] => True
  | t :: ts' => tracked s t ∧ all_tracked (step s t) ts'
  end.

End NavigationHistory.

(** ** The component *)

(** The fields of a sandbox module that the preview reads. *)
Record SandboxModule := mkModule {
  module_id : string;
  module_code : option string;
  module_isBinary : option bool;
}.

#[global] Instance SandboxModule_eq_dec : EqDecision SandboxModule.
Proof. solve_decision. Defined.

(** An entry of the [extraModules] prop: [{ code: string; path: string }]. *)
Record ExtraModule := mkExtra {
  extra_code : string;
  extra_path : string;
}.

Inductive SSEContainerStatus :=
| initializing
| container_started
| sandbox_started
| container_hibernated
| stopped.

#[global] Instance SSEContainerStatus_eq_dec : EqDecision SSEContainerStatus.
Proof. solve_decision. Defined.

Record Settings := mkSettings {
  clearConsoleEnabled : bool;
  forceRefresh : bool;
}.

(** The socket.io handle kept in [this.$socket]. *)
Record Socket := mkSocket {
  connected : bool;
}.

Inductive Exn := TypeError.

(** The fields of a sandbox that the preview reads. *)
Record Sandbox (Directory : Type) := mkSandbox {
  sandbox_id : string;
  modules : list SandboxModule;
  directories : list Directory;
  entry : string;
  template : string;
  externalResources : list string;
}.
Arguments mkSandbox {Directory}.
Arguments sandbox_id {Directory}.
Arguments modules {Directory}.
Arguments directories {Directory}.
Arguments entry {Directory}.
Arguments template {Directory}.
Arguments externalResources {Directory}.

(** Collaborators that live outside of this file. *)
Class Collaborators := {
  Directory : Type;
  (** [getModulePath(modules, directories, id)]; [None] is [null]. *)
  getModulePath : list SandboxModule → list Directory → string → option string;
  (** [generateFileFromSandbox(sandbox)] *)
  generateFileFromSandbox : Sandbox Directory → string;
  (** [frameUrl(sandbox, append)]; [append] defaults to the empty string. *)
  frameUrl : Sandbox Directory → string → string;
  (** The host name [getSSEUrl] puts after [sse.]. *)
  sseHost : string;
}.

Section Preview.

Context `{Collaborators}.

Definition getSSEUrl (sandbox : option (Sandbox Directory)) (initialPath : string) : string :=
  "https://" +:+ match sandbox with Some sb => sandbox_id sb +:+ "." | None => "" end
             +:+ "sse." +:+ sseHost +:+ initialPath.

Record Props := mkProps {
  sandbox : Sandbox Directory;
  settings : Settings;
  extraModules : option (gmap string ExtraModule);
  currentModule : option SandboxModule;
  initialPath : option string;
  isInProjectView : bool;
  containerStatus : option SSEContainerStatus;
  onInitialized : bool;
  onClearErrors : bool;
  onAction : bool;
  onResize : bool;
}.

Record LastSent := mkLastSent {
  sandboxId : string;
  lastModules : IModulesByPath;
}.

(** The component instance: its props and state, and the instance
    fields the modelled methods read or write. *)
Record BasePreview := mkPreview {
  props : Props;
  state : NavigationHistory.State;
  serverPreview : bool;
  lastSent : LastSent;
  socket : option Socket;
}.

(** The payload of the [compile] message. *)
Record Compile := mkCompile {
  compile_version : Z;
  compile_entry : option string;
  compile_modules : IModulesByPath;
  compile_sandboxId : string;
  compile_externalResources : list string;
  compile_isModuleView : bool;
  compile_template : string;
  compile_hasActions : bool;
}.

(** Messages handed to [dispatch] of codesandbox-api. *)
Inductive HostMessage :=
| ClearConsole
| Evaluate (command : string)
| CompileMessage (payload : Compile)
| ErrorClear
| TerminalMessage (data : string).

(** What is emitted on the socket. *)
Inductive SocketPayload :=
| Updates (diff : IModulesByPath)
| Fields (message : list (string * string)).

Inductive Effect :=
| ConsoleClear
| Dispatch (m : HostMessage)
| SocketEmit (channel : string) (payload : SocketPayload)
| SocketClose
| OnClearErrors
| OnInitialized
| OnResize (height : Z)
| OnAction (data : list (string * string)) (sandboxId : string)
| RegisterFrame (url : string)
| SetFrameSrc (url : string)
| HideScreenshotAfter (delay : Z)
| Notify (message : string).

(** Messages posted by the frame, by their [type]. *)
Inductive FrameMessage :=
| Initialized
| Render
| UrlChange (url action : string) (diff : Z)
| Resize (height : Z)
| Action (data : list (string * string))
| SocketMessage (channel : string) (message : list (string * string))
| Done
| Other (type : string).

Record Envelope := mkEnvelope {
  codesandbox : bool;
  body : FrameMessage;
}.

(** *** Running a method

    A method reads and writes the instance, performs effects and may
    throw. *)
Inductive Run (A : Type) :=
| Returned (a : A) (this : BasePreview) (out : list Effect)
| Thrown (e : Exn) (this : BasePreview) (out : list Effect).
Arguments Returned {A}.
Arguments Thrown {A}.

Definition M (A : Type) : Type := BasePreview → Run A.

#[local] Instance M_ret : MRet M := λ A a this, Returned a this [].

#[local] Instance M_bind : MBind M := λ A B k c this,
  match c this with
  | Returned a this' out =>
      match k a this' with
      | Returned b this'' out' => Returned b this'' (out ++ out')
      | Thrown e this'' out' => Thrown e this'' (out ++ out')
      end
  | Thrown e this' out => Thrown e this' out
  end.

Definition get : M BasePreview := λ this, Returned this this [].
Definition put (this' : BasePreview) : M unit := λ _, Returned () this' [].
Definition perform (e : Effect) : M unit := λ this, Returned () this [e].
Definition throw {A} (e : Exn) : M A := λ this, Thrown e this [].
Definition when (b : bool) (c : M unit) : M unit := if b then c else mret ().

Definition with_state (st : NavigationHistory.State) (this : BasePreview) : BasePreview :=
  {| props := props this; state := st;
     serverPreview := serverPreview this; lastSent := lastSent this;
     socket := socket this |}.

Definition with_lastModules (ms : IModulesByPath) (this : BasePreview) : BasePreview :=
  {| props := props this; state := state this;
     serverPreview := serverPreview this;
     lastSent := {| sandboxId := sandboxId (lastSent this); lastModules := ms |};
     socket := socket this |}.

(** [this.setState(f)] *)
Definition setState (f : NavigationHistory.State → NavigationHistory.State) : M unit :=
  this ← get;
  put (with_state (f (state this)) this).

(** [this.lastSent.modules = modules] *)
Definition set_lastSent_modules (ms : IModulesByPath) : M unit :=
  this ← get;
  put (with_lastModules ms this).

(** [this.$socket.emit(channel, payload)]: a call on [undefined]
    throws. *)
Definition socket_emit (channel : string) (payload : SocketPayload) : M unit :=
  this ← get;
  match socket this with
  | Some _ => perform (SocketEmit channel payload)
  | None => throw TypeError
  end.

(** The visible outcome of a run. *)
Definition effects {A} (r : Run A) : list Effect :=
  match r with Returned _ _ out | Thrown _ _ out => out end.

Definition final {A} (r : Run A) : BasePreview :=
  match r with Returned _ this _ | Thrown _ this _ => this end.

Definition throws {A} (r : Run A) : bool :=
  match r with Returned _ _ _ => false | Thrown _ _ _ => true end.

Import NavigationHistory.

(** *** Collecting the modules to send *)

(** [if (path)]: [null] and the empty string are falsy. *)
Definition truthy_path (path : option string) : option string :=
  match path with
  | Some p => if decide (p = "") then None else Some p
  | None => None
  end.

(** The path the resolver gives a module of the sandbox, when it is
    one the [forEach] of [getModulesToSend] keeps. *)
Definition resolved (sb : Sandbox Directory) (m : SandboxModule) : option string :=
  truthy_path (getModulePath (modules sb) (directories sb) (module_id m)).

Definition module_entry (path : string) (m : SandboxModule) : ModuleEntry :=
  {| path := path; code := module_code m; isBinary := module_isBinary m |}.

(** The body of [sandbox.modules.forEach]. *)
Definition add_module (sb : Sandbox Directory) (modulesObject : IModulesByPath)
    (m : SandboxModule) : IModulesByPath :=
  match resolved sb m with
  | Some path => <[path := module_entry path m]> modulesObject
  | None => modulesObject
  end.

(** [modulesObject] once the [forEach] went through [ms]. *)
Definition collect (sb : Sandbox Directory) (ms : list SandboxModule) : IModulesByPath :=
  foldl (add_module sb) ∅ ms.

(** An entry of [extraModules], read as an entry of [IModulesByPath]. *)
Definition extra_entry (x : ExtraModule) : ModuleEntry :=
  {| path := extra_path x; code := Some (extra_code x); isBinary := None |}.

Definition package_json (sb : Sandbox Directory) : ModuleEntry :=
  {| code := Some (generateFileFromSandbox sb); path := "/package.json";
     isBinary := Some false |}.

Definition getModulesToSend (this : BasePreview) : IModulesByPath :=
  let sandbox := sandbox (props this) in
  let modulesObject := collect sandbox (modules sandbox) in
  let extraModules := default ∅ (extraModules (props this)) in
  (* { ...extraModules, ...modulesObject } *)
  let modulesToSend := modulesObject ∪ (extra_entry <$> extraModules) in
  match modulesToSend !! "/package.json" with
  | Some _ => modulesToSend
  | None => <["/package.json" := package_json sandbox]> modulesToSend
  end.

(** *** Construction and new props *)

(** The constructor; [isServer] is [getTemplate(template).isServer].
    A server preview creates its socket at once. *)
Definition construct (isServer : bool) (pr : Props) : BasePreview :=
  let address :=
    if isServer
    then getSSEUrl (Some (sandbox pr)) (default "" (initialPath pr))
    else frameUrl (sandbox pr) (default "" (initialPath pr)) in
  let this :=
    {| props := pr; state := initialState address; serverPreview := isServer;
       lastSent := {| sandboxId := sandbox_id (sandbox pr); lastModules := ∅ |};
       socket := if isServer then Some {| connected := false |} else None |} in
  (* initializeLastSent *)
  with_lastModules (getModulesToSend this) this.

(** The component is handed new props for the same sandbox. *)
Definition receive (pr : Props) (this : BasePreview) : BasePreview :=
  {| props := pr; state := state this; serverPreview := serverPreview this;
     lastSent := lastSent this; socket := socket this |}.

(** *** Methods *)

Definition clearErrors : M unit :=
  this ← get;
  perform (Dispatch ErrorClear);;
  when (onClearErrors (props this)) (perform OnClearErrors).

(** The url a frame is pointed at when none is known. *)
Definition defaultUrl (this : BasePreview) : string :=
  if serverPreview this
  then getSSEUrl (Some (sandbox (props this))) ""
  else frameUrl (sandbox (props this)) "".

(** [handleRefresh]; [SetFrameSrc] stands for the assignment to the
    [src] of the frame element, done when the element exists. *)
Definition handleRefresh : M unit :=
  this ← get;
  let url := refreshUrl (state this) in
  perform (SetFrameSrc (if decide (url = "") then defaultUrl this else url));;
  setState refreshed.

(** [getRenderedModule]; reading [currentModule.id] of a missing
    [currentModule] throws. *)
Definition getRenderedModule : M (option string) :=
  this ← get;
  let sandbox := sandbox (props this) in
  if isInProjectView (props this)
  then mret (Some ("/" +:+ entry sandbox))
  else match currentModule (props this) with
       | Some m => mret (getModulePath (modules sandbox) (directories sandbox) (module_id m))
       | None => throw TypeError
       end.

Definition executeCodeImmediately (initialRender : bool) : M unit :=
  this ← get;
  let settings := settings (props this) in
  let sandbox := sandbox (props this) in
  when (clearConsoleEnabled settings && negb (serverPreview this))
       (perform ConsoleClear;; perform (Dispatch ClearConsole));;
  clearErrors;;
  if forceRefresh settings && negb initialRender then
    handleRefresh
  else
    when (negb (isInProjectView (props this)))
         (perform (Dispatch (Evaluate "history.pushState({}, null, '/')")));;
    let modulesToSend := getModulesToSend this in
    if serverPreview this then
      let diff := SnapshotDiffer.getDiff (lastModules (lastSent this)) modulesToSend in
      when (bool_decide (containerStatus (props this) = Some sandbox_started))
           (set_lastSent_modules modulesToSend);;
      when (bool_decide (0 < Z.of_nat (length (keys diff))) && bool_decide (is_Some (socket this)))
           (socket_emit "sandbox:update" (Updates diff))
    else
      entry ← getRenderedModule;
      perform (Dispatch (CompileMessage
        {| compile_version := 3;
           compile_entry := entry;
           compile_modules := modulesToSend;
           compile_sandboxId := sandbox_id sandbox;
           compile_externalResources := externalResources sandbox;
           compile_isModuleView := negb (isInProjectView (props this));
           compile_template := template sandbox;
           compile_hasActions := onAction (props this) |})).

(** [handleMessage(data, source)]; [source] tells whether the message
    carries a source window. *)
Definition handleMessage (data : option Envelope) (source : bool) : M unit :=
  this ← get;
  match data with
  | Some data =>
      if codesandbox data then
        match body data, source with
        | Initialized, true =>
            perform (RegisterFrame
              (if serverPreview this
               then getSSEUrl (Some (sandbox (props this))) ""
               else frameUrl (sandbox (props this)) ""));;
            when (negb (frameInitialized (state this)) && onInitialized (props this))
                 (perform OnInitialized);;
            perform (HideScreenshotAfter (if serverPreview this then 0 else 600));;
            executeCodeImmediately true
        | Render, _ => executeCodeImmediately false
        | UrlChange url action diff, _ => setState (commitUrl url action diff)
        | Resize height, _ => when (onResize (props this)) (perform (OnResize height))
        | Action data, _ =>
            when (onAction (props this))
                 (perform (OnAction data (sandbox_id (sandbox (props this)))))
        | SocketMessage channel message, _ =>
            when (bool_decide (is_Some (socket this)))
                 (socket_emit channel (Fields message))
        | Done, _ => setState (set_showScreenshot false)
        | _, _ => mret ()
        end
      else mret ()
  | None => mret ()
  end.

(** [sseTerminalMessage(msg)] *)
Definition sseTerminalMessage (msg : string) : M unit :=
  perform (Dispatch (TerminalMessage
    ("> Sandbox Container: " +:+ msg +:+ String "010"%char (String "013"%char "")))).

(** The listener of the socket's [sandbox:error] event. *)
Definition onSandboxError (message : string) (unrecoverable : bool) : M unit :=
  this ← get;
  sseTerminalMessage
    ("sandbox " +:+ sandbox_id (sandbox (props this)) +:+ " "
       +:+ (if unrecoverable then "unrecoverable " else "")
       +:+ "error " +:+ String "034"%char message +:+ String "034"%char "");;
  if unrecoverable then
    setState (set_unrecoverable
      "An unrecoverable sandbox error occurred. :-( Try refreshing the page.");;
    match socket this with
    | Some _ => perform SocketClose
    | None => throw TypeError
    end
  else
    perform (Notify ("Sandbox Container: " +:+ message)).

(** An error made known without throwing: the component has one sink
    for that, [notificationState.addNotification], written [Notify]. *)
Definition is_report (e : Effect) : bool :=
  match e with Notify _ => true | _ => false end.

Definition reports_error {A} (r : Run A) : bool := existsb is_report (effects r).

Definition is_socket_emit (e : Effect) : bool :=
  match e with SocketEmit _ _ => true | _ => false end.

(** The run of a method that did nothing that can be observed. *)
Definition silent (this : BasePreview) (r : Run unit) : Prop :=
  r = Returned () this [].

(** An execution request that goes on to synchronise the modules,
    rather than being turned into a reload of the frame. *)
Definition synchronises (initialRender : bool) (this : BasePreview) : bool :=
  negb (forceRefresh (settings (props this)) && negb initialRender).

End Preview.

Arguments Returned {_ A}.
Arguments Thrown {_ A}.

(** ** Sample data *)

Module Samples.

Import SnapshotDiffer NavigationHistory.

Definition entry_of (p c : string) (bin : bool) : ModuleEntry :=
  {| path := p; code := Some c; isBinary := Some bin |}.

(** One text file, and the same file flagged as binary. *)
Definition text_a : IModulesByPath := {[ "/a.js" := entry_of "/a.js" "1" false ]}.
Definition binary_a : IModulesByPath := {[ "/a.js" := entry_of "/a.js" "1" true ]}.

(** The snapshots of the specification's scenarios. *)
Definition one_file : IModulesByPath := {[ "/a.js" := entry_of "/a.js" "1" false ]}.
Definition two_files : IModulesByPath :=
  <[ "/b.js" := entry_of "/b.js" "x" false ]> {[ "/a.js" := entry_of "/a.js" "2" false ]}.

(** The history right after the constructor ran. *)
Definition fresh : State := initialState "https://new.csb.app/".

(** A history of four entries, standing on the last. *)
Definition visited : State :=
  set_nav ["/"; "/a"; "/b"; "/c"] 3 "/c" fresh.

#[local] Instance collaborators : Collaborators := {|
  Directory := unit;
  getModulePath := λ ms _ i, if decide (i = "lost") then None else Some ("/" +:+ i);
  generateFileFromSandbox := λ sb, "{}";
  frameUrl := λ sb append, "https://" +:+ sandbox_id sb +:+ ".csb.app" +:+ append;
  sseHost := "codesandbox.io";
|}.

Definition index_js (source : string) : SandboxModule :=
  {| module_id := "index.js"; module_code := Some source; module_isBinary := Some false |}.

Definition lost_module : SandboxModule :=
  {| module_id := "lost"; module_code := Some "?"; module_isBinary := Some false |}.

Definition a_sandbox (source : string) : Sandbox unit :=
  {| sandbox_id := "new"; modules := [index_js source; lost_module]; directories := [];
     entry := "index.js"; template := "node"; externalResources := [] |}.

Definition some_props (source : string) (force : bool)
    (status : option SSEContainerStatus) : Props :=
  {| sandbox := a_sandbox source;
     settings := {| clearConsoleEnabled := false; forceRefresh := force |};
     extraModules := Some {[ "/index.js" := {| extra_code := "stale"; extra_path := "/index.js" |} ]};
     currentModule := Some (index_js source);
     initialPath := None;
     isInProjectView := true;
     containerStatus := status;
     onInitialized := false; onClearErrors := false; onAction := false; onResize := false |}.

(** A server preview built while [index.js] read [render()], whose
    container has the status [status] now that the file was edited. *)
Definition server_preview (force : bool) (status : option SSEContainerStatus) : BasePreview :=
  receive (some_props "render(2)" force status)
          (construct true (some_props "render()" force None)).

(** The same preview, had it no socket. *)
Definition server_preview_without_socket : BasePreview :=
  {| props := props (server_preview false (Some sandbox_started));
     state := state (server_preview false (Some sandbox_started));
     serverPreview := true;
     lastSent := lastSent (server_preview false (Some sandbox_started));
     socket := None |}.

(** A preview run in the browser: it never opens a socket. *)
Definition browser_preview : BasePreview :=
  construct false (some_props "render()" false None).

End Samples.

(** ** The navigator's buttons and address bar *)

Module Navigator.

Import NavigationHistory.

(** [onBack={historyPosition > 0 ? this.handleBack : null}] *)
Definition canGoBack (s : State) : bool :=
  bool_decide (0 < historyPosition s).

(** [onForward={historyPosition < history.length - 1 ? this.handleForward : null}] *)
Definition canGoForward (s : State) : bool :=
  bool_decide (historyPosition s < Z.of_nat (length (history s)) - 1).

(** [updateUrl(url)]: [setState({ urlInAddressBar: url })] *)
Definition updateUrl (url : string) (s : State) : State :=
  set_nav (history s) (historyPosition s) url s.

End Navigator.

(** ** The token of the container service *)

Module SSEToken.

(** The value kept under [sse] in the local storage:
    [{ key: token, timestamp: currentTime }]; [JSON.stringify] leaves
    out a [key] that is [undefined]. *)
Record SSEKey := mkKey {
  key : option string;
  timestamp : Z;
}.

(** The two items of the local storage that are read, as the values
    [JSON.parse] gives for them; [None] is an item that is missing (or
    empty, for [jwt]). *)
Record LocalStorage := mkStorage {
  jwt : option string;
  sse : option SSEKey;
}.

(** How the request to [/api/v1/users/current_user/sse] ends: the
    chain of promises is rejected, or the answer is read and its [jwt]
    field (possibly missing) is taken. *)
Inductive Response :=
| Rejected
| Answered (jwt : option string).

Record Retrieved := mkRetrieved {
  token : option string;
  storage : LocalStorage;
  fetched : bool;
}.

Definition MAX_SSE_AGE : Z := 24 * 60 * 60 * 1000.

(** [parsedKey.key && ...]: a missing key and the empty string are
    falsy. *)
Definition usable (k : option string) : bool :=
  match k with
  | Some s => if decide (s = "") then false else true
  | None => false
  end.

(** [retrieveSSEToken()], at the time [currentTime], the request being
    answered by [response] if it is made at all; [fetched] tells
    whether it was. *)
Definition retrieveSSEToken (ls : LocalStorage) (currentTime : Z) (response : Response)
  : Retrieved :=
  match jwt ls with
  | Some parsedJWT =>
      let request :=
        match response with
        | Answered token =>
            {| token := token;
               storage := {| jwt := jwt ls;
                             sse := Some {| key := token; timestamp := currentTime |} |};
               fetched := true |}
        | Rejected => {| token := None; storage := ls; fetched := true |}
        end in
      match sse ls with
      | Some parsedKey =>
          if usable (key parsedKey)
             && bool_decide (currentTime - timestamp parsedKey < MAX_SSE_AGE)
          then {| token := key parsedKey; storage := ls; fetched := false |}
          else request
      | None => request
      end
  | None => {| token := None; storage := ls; fetched := false |}
  end.

End SSEToken.

(** ** The socket of a server preview *)

(** Modelled from the spec: the declaration of [SSEManagerStatus] is
    not in this file; the specification lists connecting, connected
    and disconnected. *)
Inductive SSEManagerStatus :=
| manager_connecting
| manager_connected
| manager_disconnected.

#[global] Instance SSEManagerStatus_eq_dec : EqDecision SSEManagerStatus.
Proof. solve_decision. Defined.

(** What a timer runs when it fires. *)
Inductive Callback :=
| ConnectTimedOut
| Reopen
| StartedSync.

Section Connection.

Context `{Collaborators}.

#[local] Existing Instance M_ret.
#[local] Existing Instance M_bind.

Import NavigationHistory.

(** The instance with the fields and props that the socket's
    listeners use besides those of [BasePreview]. *)
Record Connection := mkConnection {
  preview : BasePreview;
  connectTimeout : option positive;
  localClose : bool;
  setSSEManagerStatus : bool;
  setSSEContainerStatus : bool;
  managerStatus : option SSEManagerStatus;
}.

(** What a listener does besides the effects of the methods: calls of
    the status callbacks, timers (a timer is named by the handle
    [window.setTimeout] returns, a positive number), and what is sent
    to open a session. *)
Inductive Command :=
| Perform (e : Effect)
| SetSSEManagerStatus (status : SSEManagerStatus)
| SetSSEContainerStatus (status : SSEContainerStatus)
| DispatchDisconnect
| ResetState
| CreateSocket (url : string)
| SocketOpen
| SetTimeout (timer : positive) (delay : Z) (callback : Callback)
| Defer (callback : Callback)
| ClearTimeout (timer : positive)
| AwaitToken
| EmitSandbox (id : string) (token : option string)
| EmitSandboxStart.

Definition with_preview (p : BasePreview) (c : Connection) : Connection :=
  {| preview := p; connectTimeout := connectTimeout c; localClose := localClose c;
     setSSEManagerStatus := setSSEManagerStatus c;
     setSSEContainerStatus := setSSEContainerStatus c;
     managerStatus := managerStatus c |}.

Definition with_connectTimeout (t : option positive) (c : Connection) : Connection :=
  {| preview := preview c; connectTimeout := t; localClose := localClose c;
     setSSEManagerStatus := setSSEManagerStatus c;
     setSSEContainerStatus := setSSEContainerStatus c;
     managerStatus := managerStatus c |}.

Definition with_localClose (b : bool) (c : Connection) : Connection :=
  {| preview := preview c; connectTimeout := connectTimeout c; localClose := b;
     setSSEManagerStatus := setSSEManagerStatus c;
     setSSEContainerStatus := setSSEContainerStatus c;
     managerStatus := managerStatus c |}.

Definition with_socket (sock : option Socket) (this : BasePreview) : BasePreview :=
  {| props := props this; state := state this; serverPreview := serverPreview this;
     lastSent := lastSent this; socket := sock |}.

Definition with_serverPreview (b : bool) (this : BasePreview) : BasePreview :=
  {| props := props this; state := state this; serverPreview := b;
     lastSent := lastSent this; socket := socket this |}.

(** [setState({ frameInitialized, overlayMessage })] *)
Definition set_frame (initialized : bool) (overlay : option string) (s : State) : State :=
  {| frameInitialized := initialized;
     history := history s; historyPosition := historyPosition s;
     urlInAddressBar := urlInAddressBar s;
     url := url s; overlayMessage := overlay;
     hibernated := hibernated s; sseError := sseError s;
     showScreenshot := showScreenshot s |}.

(** [setState({ frameInitialized })] *)
Definition set_frameInitialized (initialized : bool) (s : State) : State :=
  set_frame initialized (overlayMessage s) s.

(** The effect of [sseTerminalMessage(msg)]. *)
Definition terminal (msg : string) : Command :=
  Perform (Dispatch (TerminalMessage
    ("> Sandbox Container: " +:+ msg +:+ String "010"%char (String "013"%char "")))).

(** [onTimeout(comp)] *)
Definition onTimeout (c : Connection) : Connection * list Command :=
  (with_connectTimeout None c,
   if setSSEManagerStatus c then [SetSSEManagerStatus manager_disconnected] else []).

(** [setupSSESockets()]; [timer] is the handle of the timeout it sets
    when it creates the socket. *)
Definition setupSSESockets (timer : positive) (c : Connection)
  : Connection * list Command :=
  let this := preview c in
  match socket this with
  | Some _ =>
      (with_localClose true
         (with_preview (with_state (set_frameInitialized false (state this)) this) c),
       [Perform SocketClose; Defer Reopen])
  | None =>
      (with_connectTimeout (Some timer)
         (with_preview (with_socket (Some {| connected := false |}) this) c),
       [CreateSocket (getSSEUrl None ""); SetTimeout timer 3000 ConnectTimedOut; SocketOpen])
  end.

(** The callback deferred by [setupSSESockets] when the socket was
    there; [timer] is the handle of the timeout it sets. *)
Definition reopen (timer : positive) (c : Connection) : Connection * list Command :=
  (with_connectTimeout (Some timer) c,
   [SetTimeout timer 3000 ConnectTimedOut; SocketOpen]).

(** The listener of [disconnect]. *)
Definition onDisconnect (c : Connection) : Connection * list Command :=
  if localClose c then (with_localClose false c, [])
  else if setSSEManagerStatus c
          && bool_decide (managerStatus c = Some manager_connected)
          && bool_decide (containerStatus (props (preview c)) ≠ Some container_hibernated)
  then (c, [SetSSEManagerStatus manager_disconnected; DispatchDisconnect])
  else (c, []).

(** The listener of [connect], up to its [await]. *)
Definition onConnect (c : Connection) : Connection * list Command :=
  (with_connectTimeout None c,
   match connectTimeout c with Some t => [ClearTimeout t] | None => [] end
   ++ (if setSSEManagerStatus c then [SetSSEManagerStatus manager_connected] else [])
   ++ [AwaitToken]).

(** The listener of [connect], from its [await] on; [id] is the id of
    the sandbox read before the [await]. *)
Definition onConnectResumed (id : string) (token : option string) (c : Connection)
  : Connection * list Command :=
  (c, [EmitSandbox id token;
       terminal ("connected, starting sandbox " +:+ id +:+ "...");
       EmitSandboxStart]).

(** The listener of [sandbox:status]. *)
Definition onSandboxStatus (status : string) (c : Connection) : Connection * list Command :=
  (c,
   if setSSEContainerStatus c then
     if decide (status = "starting-container") then [SetSSEContainerStatus initializing]
     else if decide (status = "installing-packages")
          then [SetSSEContainerStatus container_started]
          else []
   else []).

(** The listener of [sandbox:start]. *)
Definition onSandboxStart (c : Connection) : Connection * list Command :=
  let this := preview c in
  (with_preview (with_state (set_frame true None (state this)) this) c,
   [terminal ("sandbox " +:+ sandbox_id (sandbox (props this)) +:+ " started.")]
   ++ (if negb (frameInitialized (state this)) && onInitialized (props this)
       then [Perform OnInitialized] else [])
   ++ (if setSSEContainerStatus c then [SetSSEContainerStatus sandbox_started] else [])
   ++ [Defer StartedSync]).

(** The callback deferred by the listener of [sandbox:start]. *)
Definition startedSync : M unit :=
  executeCodeImmediately true;;
  handleRefresh.

(** The listener of [sandbox:hibernate]; the socket is closed in the
    callback of its [setState]. *)
Definition onSandboxHibernate (c : Connection) : Connection * list Command :=
  let this := preview c in
  (with_preview
     (with_state
        (set_frame false
           (Some "The sandbox was hibernated because of inactivity. Refresh the page to restart it.")
           (state this)) this) c,
   [terminal ("sandbox " +:+ sandbox_id (sandbox (props this)) +:+ " hibernated.")]
   ++ (if setSSEContainerStatus c then [SetSSEContainerStatus container_hibernated] else [])
   ++ [Perform SocketClose]).

(** The listener of [sandbox:stop]. *)
Definition onSandboxStop (c : Connection) : Connection * list Command :=
  let this := preview c in
  (with_preview
     (with_state (set_frame false (Some "Restarting the sandbox...") (state this)) this) c,
   [terminal ("sandbox " +:+ sandbox_id (sandbox (props this)) +:+ " restarting...")]
   ++ (if setSSEContainerStatus c then [SetSSEContainerStatus stopped] else [])).

(** [initializeLastSent()] *)
Definition initializeLastSent (this : BasePreview) : BasePreview :=
  {| props := props this; state := state this; serverPreview := serverPreview this;
     lastSent := {| sandboxId := sandbox_id (sandbox (props this));
                    lastModules := getModulesToSend this |};
     socket := socket this |}.

(** [handleSandboxChange(this.props.sandbox)], as [componentDidUpdate]
    calls it; [isServer] is [getTemplate(template).isServer] and
    [timer] the handle of the timeout [setupSSESockets] may set. *)
Definition handleSandboxChange (isServer : bool) (timer : positive) (c : Connection)
  : Connection * list Command :=
  let this := with_serverPreview isServer (preview c) in
  let sandbox := sandbox (props this) in
  let url :=
    if isServer
    then getSSEUrl (Some sandbox) (default "" (initialPath (props this)))
    else frameUrl sandbox (default "" (initialPath (props this))) in
  let '(c, commands) :=
    if isServer then
      let '(c, commands) := setupSSESockets timer (with_preview (initializeLastSent this) c) in
      (c, commands ++ [Perform (HideScreenshotAfter 800)])
    else (with_preview this c, []) in
  let this := preview c in
  (with_preview (with_state (sandboxChanged url (state this)) this) c,
   ResetState :: commands
     ++ [Perform (SetFrameSrc (if decide (url = "") then defaultUrl this else url))]).

(** The connection a constructor leaves: the instance it builds; for a
    server preview, the timeout it set. *)
Definition connect_new (isServer : bool) (timer : positive) (pr : Props)
    (onManager onContainer : bool) (status : option SSEManagerStatus) : Connection :=
  {| preview := construct isServer pr;
     connectTimeout := if isServer then Some timer else None;
     localClose := false;
     setSSEManagerStatus := onManager;
     setSSEContainerStatus := onContainer;
     managerStatus := status |}.

(** The listeners and timers of a server preview, as events. *)
Inductive Event :=
| Connected
| Disconnected
| TimedOut
| Setup (timer : positive)
| Reopened (timer : positive)
| Started
| Hibernated
| Stopped.

Definition handle (c : Connection) (e : Event) : Connection * list Command :=
  match e with
  | Connected => onConnect c
  | Disconnected => onDisconnect c
  | TimedOut => onTimeout c
  | Setup timer => setupSSESockets timer c
  | Reopened timer => reopen timer c
  | Started => onSandboxStart c
  | Hibernated => onSandboxHibernate c
  | Stopped => onSandboxStop c
  end.

(** A sequence of events, with all the commands issued. *)
Fixpoint handle_all (c : Connection) (es : list Event) : Connection * list Command :=
  match es with
  | [] => (c, [])
  | e :: es' =>
      let '(c', out) := handle c e in
      let '(c'', out') := handle_all c' es' in
      (c'', out ++ out')
  end.

End Connection.

(** ** Reading the run of a method *)

Section Outcomes.

Context `{Collaborators}.

(** What a method leaves alone when it keeps the props, the socket and
    the kind of the preview. *)
Definition untouched (this this' : BasePreview) : Prop :=
  props this' = props this
  ∧ socket this' = socket this
  ∧ serverPreview this' = serverPreview this.

Definition keeps_frame {A} (m : M A) : Prop :=
  ∀ this, untouched this (final (m this)).

(** What [executeCodeImmediately] does before it looks at
    [forceRefresh]: the console is cleared for a browser preview that
    asks for it, and the errors are cleared. *)
Definition clearing (this : BasePreview) : list Effect :=
  (if clearConsoleEnabled (settings (props this)) && negb (serverPreview this)
   then [ConsoleClear; Dispatch ClearConsole] else [])
  ++ Dispatch ErrorClear
  :: (if onClearErrors (props this) then [OnClearErrors] else []).

(** The [evaluate] message sent in module view. *)
Definition resetting (this : BasePreview) : list Effect :=
  if isInProjectView (props this) then []
  else [Dispatch (Evaluate "history.pushState({}, null, '/')")].

(** The [compile] message of a browser preview for the entry [e]. *)
Definition compile_message (this : BasePreview) (e : option string) : Compile :=
  let sandbox := sandbox (props this) in
  {| compile_version := 3;
     compile_entry := e;
     compile_modules := getModulesToSend this;
     compile_sandboxId := sandbox_id sandbox;
     compile_externalResources := externalResources sandbox;
     compile_isModuleView := negb (isInProjectView (props this));
     compile_template := template sandbox;
     compile_hasActions := onAction (props this) |}.

Definition is_compile (e : Effect) : bool :=
  match e with Dispatch (CompileMessage _) => true | _ => false end.

End Outcomes.

(** ** More sample data *)

Module MoreSamples.

Import Samples.

#[local] Existing Instance collaborators.

(** A browser preview in module view that was given no current
    module. *)
Definition moduleless_preview : BasePreview :=
  construct (H := collaborators) false
    {| sandbox := a_sandbox "render()";
       settings := {| clearConsoleEnabled := true; forceRefresh := false |};
       extraModules := None;
       currentModule := None;
       initialPath := None;
       isInProjectView := false;
       containerStatus := None;
       onInitialized := false; onClearErrors := false; onAction := false;
       onResize := false |}.

(** A server preview right after its constructor, the manager being
    reported connected since. *)
Definition a_connection (status : option SSEContainerStatus) : Connection :=
  connect_new (H := collaborators) true 7%positive (some_props "render()" false status)
    true true (Some manager_connected).

(** The same, for a parent that passes [onInitialized]. *)
Definition watched_connection : Connection :=
  connect_new (H := collaborators) true 7%positive
    {| sandbox := a_sandbox "render()";
       settings := {| clearConsoleEnabled := false; forceRefresh := false |};
       extraModules := None;
       currentModule := None;
       initialPath := None;
       isInProjectView := true;
       containerStatus := None;
       onInitialized := true; onClearErrors := false; onAction := false;
       onResize := false |}
    true true (Some manager_connected).

(** A component that has no socket yet. *)
Definition unconnected : Connection :=
  connect_new (H := collaborators) false 7%positive (some_props "render()" false None)
    true true None.

End MoreSamples.

(** * Properties *)

(** ** The snapshot differ *)

Section SnapshotDifferFacts.

Import SnapshotDiffer.

Lemma elem_of_keys {V} (o : gmap string V) (p : string) :
  p ∈ keys o ↔ is_Some (o !! p).
Proof.
  unfold keys. rewrite list_elem_of_fmap. split.
  - intros [[k v] [-> Hkv]]. apply elem_of_map_to_list in Hkv. by exists v.
  - intros [v Hv]. exists (p, v). split; [done|]. by apply elem_of_map_to_list.
Qed.

(** The first loop writes [b]'s entry at the listed paths and touches
    no other path. *)
Lemma foldl_put_changed_lookup (b : IModulesByPath) l (d : IModulesByPath) p :
  foldl (put_changed b) d l !! p =
    match b !! p with
    | Some eb => if decide (p ∈ l) then Some (changed_entry p eb) else d !! p
    | None => d !! p
    end.
Proof.
  revert d. induction l as [|q l IH]; intros d; cbn [foldl].
  - destruct (b !! p); [|done]. case_decide as Hin; [|done]. by apply elem_of_nil in Hin.
  - rewrite IH. unfold put_changed.
    destruct (b !! p) as [eb|] eqn:Hb.
    + destruct (decide (p = q)) as [->|Hne].
      * rewrite Hb, lookup_insert_eq.
        rewrite (decide_True (P := (q ∈ q :: l))) by apply list_elem_of_here.
        by case_decide.
      * assert (Hd : (match b !! q with
                      | Some e => <[q:=changed_entry q e]> d
                      | None => d
                      end) !! p = d !! p).
        { destruct (b !! q); [|done]. by rewrite lookup_insert_ne. }
        rewrite Hd. destruct (decide (p ∈ l)) as [Hin|Hin].
        -- rewrite decide_True; [done|]. by apply list_elem_of_further.
        -- rewrite decide_False; [done|]. rewrite elem_of_cons. tauto.
    + destruct (b !! q) eqn:Hq; [|done]. rewrite lookup_insert_ne; [done|]. congruence.
Qed.

(** The second loop writes a tombstone at the listed paths that [b]
    lacks and touches no other path. *)
Lemma foldl_put_removed_lookup (b : IModulesByPath) l (d : IModulesByPath) p :
  foldl (put_removed b) d l !! p =
    match b !! p with
    | Some _ => d !! p
    | None => if decide (p ∈ l) then Some (tombstone p) else d !! p
    end.
Proof.
  revert d. induction l as [|q l IH]; intros d; cbn [foldl].
  - destruct (b !! p); [done|]. case_decide as Hin; [|done]. by apply elem_of_nil in Hin.
  - rewrite IH. unfold put_removed.
    destruct (b !! p) as [eb|] eqn:Hb.
    + destruct (b !! q) eqn:Hq; [done|]. rewrite lookup_insert_ne; [done|]. congruence.
    + destruct (decide (p = q)) as [->|Hne].
      * rewrite Hb, lookup_insert_eq.
        rewrite (decide_True (P := (q ∈ q :: l))) by apply list_elem_of_here.
        by case_decide.
      * assert (Hd : (match b !! q with
                      | Some _ => d
                      | None => <[q:=tombstone q]> d
                      end) !! p = d !! p).
        { destruct (b !! q); [done|]. by rewrite lookup_insert_ne. }
        rewrite Hd. destruct (decide (p ∈ l)) as [Hin|Hin].
        -- rewrite decide_True; [done|]. by apply list_elem_of_further.
        -- rewrite decide_False; [done|]. rewrite elem_of_cons. tauto.
Qed.

Lemma elem_of_filter_differs (a b : IModulesByPath) p :
  p ∈ List.filter (differs a b) (keys b) ↔ is_Some (b !! p) ∧ differs a b p = true.
Proof. by rewrite list_elem_of_In, filter_In, <- list_elem_of_In, elem_of_keys. Qed.

(** The diff, path by path. *)
Lemma getDiff_lookup (a b : IModulesByPath) p :
  getDiff a b !! p =
    match b !! p, a !! p with
    | Some eb, Some ea =>
        if decide (code ea = code eb) then None else Some (changed_entry p eb)
    | Some eb, None => Some (changed_entry p eb)
    | None, Some _ => Some (tombstone p)
    | None, None => None
    end.
Proof.
  unfold getDiff. rewrite foldl_put_removed_lookup, foldl_put_changed_lookup.
  pose proof (elem_of_filter_differs a b p) as Hf.
  pose proof (elem_of_keys a p) as Hka.
  unfold differs in Hf.
  destruct (b !! p) as [eb|] eqn:Hb.
  - destruct (a !! p) as [ea|] eqn:Ha.
    + destruct (decide (code ea = code eb)) as [Hc|Hc].
      * rewrite decide_False; [apply lookup_empty|]. intros [_ ?]%Hf. done.
      * rewrite decide_True; [done|]. apply Hf. eauto.
    + rewrite decide_True; [done|]. apply Hf. eauto.
  - destruct (a !! p) as [ea|] eqn:Ha.
    + rewrite decide_True; [done|]. apply Hka. eauto.
    + rewrite decide_False; [apply lookup_empty|]. intros [? ?]%Hka. done.
Qed.

Lemma live_lookup (m : IModulesByPath) p :
  live m !! p =
    match m !! p with
    | Some e => if decide (code e = None) then None else Some e
    | None => None
    end.
Proof.
  unfold live. destruct (m !! p) as [e|] eqn:Hm.
  - case_decide as Hc.
    + apply map_lookup_filter_None. right. intros e' He'. simpl. congruence.
    + by apply map_lookup_filter_Some.
  - apply map_lookup_filter_None. by left.
Qed.

Lemma applyPatch_lookup (a d : IModulesByPath) p :
  applyPatch a d !! p = patch_entry (a !! p) (d !! p).
Proof.
  unfold applyPatch. rewrite lookup_merge.
  by destruct (a !! p), (d !! p).
Qed.

(** The live entries of a patched snapshot, path by path. *)
Lemma patched_lookup (a b : IModulesByPath) p :
  live (applyPatch a (getDiff a b)) !! p =
    match live b !! p with
    | Some eb =>
        match a !! p with
        | Some ea => if decide (code ea = code eb) then Some ea
                     else Some (changed_entry p eb)
        | None => Some (changed_entry p eb)
        end
    | None => None
    end.
Proof.
  rewrite !live_lookup, applyPatch_lookup, getDiff_lookup.
  destruct (b !! p) as [eb|], (a !! p) as [ea|]; simpl; try done.
  - destruct (code eb) as [cb|] eqn:Hcb, (code ea) as [ca|] eqn:Hca;
      repeat (case_decide; simpl; rewrite ?Hcb, ?Hca); simpl; rewrite ?Hcb, ?Hca;
      repeat case_decide; simpl in *; congruence.
  - destruct (code eb) as [cb|] eqn:Hcb; simpl; rewrite ?Hcb;
      repeat case_decide; simpl in *; congruence.
Qed.

(** C1.  The diff of [previous] and [next] holds, at a path of [next]
    that [previous] lacks or holds with another code, the entry of
    [next]; at a path of [previous] that [next] lacks, a tombstone
    (code [null]); and nothing at any other path: an entry of equal
    code is left out whatever its [isBinary] flags are. *)
Theorem getDiff_contains_exactly (previous next : IModulesByPath) (p : string) :
  getDiff previous next !! p =
    match next !! p, previous !! p with
    | Some en, None => Some (changed_entry p en)
    | Some en, Some ep =>
        if decide (code ep = code en) then None else Some (changed_entry p en)
    | None, Some _ => Some (tombstone p)
    | None, None => None
    end.
Proof.
  rewrite getDiff_lookup.
  by destruct (next !! p), (previous !! p).
Qed.

(** C2, as stated, fails: when only the [isBinary] flag of a file
    changes, the diff is empty and the patched snapshot keeps the old
    flag, so it is not [next]. *)
Lemma patch_keeps_stale_isBinary :
  getDiff Samples.text_a Samples.binary_a = ∅ ∧
  applyPatch Samples.text_a (getDiff Samples.text_a Samples.binary_a) = Samples.text_a ∧
  snapshot_of (applyPatch Samples.text_a (getDiff Samples.text_a Samples.binary_a))
    ≠ snapshot_of (live Samples.binary_a).
Proof.
  split; [reflexivity|]. split; [reflexivity|].
  intros Heq. apply (f_equal (λ m, m !! "/a.js")) in Heq.
  vm_compute in Heq. discriminate.
Qed.

(** C2, amended.  Patching [a] with [getDiff a b] gives a snapshot
    whose live entries sit at the paths of the live entries of [b] and
    carry the code [b] has there.  An entry that is new or whose code
    changed is the one of [b], its [path] set to the key; an entry
    whose code did not change is still the one of [a], [isBinary]
    included. *)
Theorem getDiff_patch_reconstructs_code (a b : IModulesByPath) :
  code <$> live (applyPatch a (getDiff a b)) = code <$> live b
  ∧ ∀ p, live (applyPatch a (getDiff a b)) !! p =
      match live b !! p with
      | Some eb =>
          match a !! p with
          | Some ea => if decide (code ea = code eb) then Some ea
                       else Some (changed_entry p eb)
          | None => Some (changed_entry p eb)
          end
      | None => None
      end.
Proof.
  split; [|apply patched_lookup].
  apply map_eq. intros p. rewrite !lookup_fmap, patched_lookup.
  destruct (live b !! p) as [eb|]; [|done].
  destruct (a !! p) as [ea|]; [|done].
  case_decide as Hc; simpl; [by rewrite Hc|done].
Qed.

(** C3.  The diff of a snapshot with itself is empty.  The diff of the
    empty snapshot with [b] is all of [b]: the same paths with the same
    code and [isBinary]; each entry has its key as [path], so the diff
    is [b] itself when the entries of [b] have. *)
Theorem getDiff_same_empty_and_full_sync (a b : IModulesByPath) :
  getDiff a a = ∅
  ∧ snapshot_of (getDiff ∅ b) = snapshot_of b
  ∧ (∀ p, getDiff ∅ b !! p = changed_entry p <$> b !! p)
  ∧ (keyed b → getDiff ∅ b = b).
Proof.
  assert (Hfull : ∀ p, getDiff ∅ b !! p = changed_entry p <$> b !! p).
  { intros p. rewrite getDiff_lookup, lookup_empty. by destruct (b !! p). }
  repeat split.
  - apply map_eq. intros p. rewrite getDiff_lookup, lookup_empty.
    destruct (a !! p) as [e|]; [|done]. by rewrite decide_True.
  - apply map_eq. intros p. unfold snapshot_of. rewrite !lookup_fmap, Hfull.
    by destruct (b !! p).
  - exact Hfull.
  - intros Hk. apply map_eq. intros p. rewrite Hfull.
    destruct (b !! p) as [e|] eqn:Hb; [|done]. simpl. f_equal.
    specialize (Hk p e Hb). simpl in Hk. destruct e; simpl in *. by subst.
Qed.

Lemma getDiff_same_empty_and_full_sync_witness :
  getDiff Samples.one_file Samples.one_file = ∅
  ∧ getDiff ∅ Samples.two_files = Samples.two_files.
Proof.
  destruct (getDiff_same_empty_and_full_sync Samples.one_file Samples.two_files)
    as (Hsame & _ & _ & Hfull).
  split; [exact Hsame|]. apply Hfull.
  apply (bool_decide_unpack _). vm_compute. exact I.
Defined.

End SnapshotDifferFacts.

(** ** The navigation history *)

Section NavigationHistoryFacts.

Import NavigationHistory.

(** [slice(0, n)] keeps the first [n] elements. *)
Lemma slice_0 {A} (arr : list A) (n : Z) :
  0 ≤ n → slice arr 0 n = take (Z.to_nat n) arr.
Proof.
  intros Hn. unfold slice, relative.
  rewrite (decide_False (P := (0 < 0))) by lia.
  rewrite (decide_False (P := (n < 0))) by lia.
  replace (Z.to_nat (0 `min` Z.of_nat (length arr))) with 0%nat by lia.
  rewrite drop_0.
  destruct (decide (n ≤ Z.of_nat (length arr))).
  - f_equal. lia.
  - by rewrite !take_ge by lia.
Qed.

(** [slice(k)] drops the first [k] elements. *)
Lemma slice_from_nonneg {A} (arr : list A) (k : Z) :
  0 ≤ k → slice_from arr k = drop (Z.to_nat k) arr.
Proof.
  intros Hk. unfold slice_from, slice, relative.
  rewrite (decide_False (P := (k < 0))) by lia.
  rewrite (decide_False (P := (Z.of_nat (length arr) < 0))) by lia.
  rewrite take_ge by (rewrite length_drop; lia).
  destruct (decide (k ≤ Z.of_nat (length arr))).
  - f_equal. lia.
  - by rewrite !drop_ge by lia.
Qed.

Lemma index_Some {A} (arr : list A) (i : Z) (x : A) :
  index arr i = Some x ↔ 0 ≤ i ∧ arr !! Z.to_nat i = Some x.
Proof.
  unfold index. case_decide; [tauto|]. split; [done|]. intros [? _]. lia.
Qed.

Lemma index_lt {A} (arr : list A) (i : Z) (x : A) :
  index arr i = Some x → 0 ≤ i < Z.of_nat (length arr).
Proof. intros [Hi Hx]%index_Some. apply lookup_lt_Some in Hx. lia. Qed.

(** The three cases of [commitUrl]. *)
Lemma commitUrl_pop u d s :
  commitUrl u "POP" d s = set_nav (history s) (historyPosition s + d) u s.
Proof. reflexivity. Qed.

Lemma commitUrl_replace u d s :
  commitUrl u "REPLACE" d s =
    set_nav (slice (history s) 0 (historyPosition s) ++ [u]
               ++ slice_from (history s) (historyPosition s + 1))
            (historyPosition s) u s.
Proof. reflexivity. Qed.

Lemma commitUrl_default u action d s :
  action ≠ "POP" → action ≠ "REPLACE" →
  commitUrl u action d s =
    set_nav (slice (history s) 0 (historyPosition s + 1) ++ [u])
            (historyPosition s + 1) u s.
Proof.
  intros Hpop Hrep. unfold commitUrl. by rewrite !decide_False.
Qed.

(** Pushing onto a history that stands on (or past) its last entry
    truncates nothing. *)
Lemma run_pushes_at_end us s :
  0 ≤ historyPosition s →
  Z.of_nat (length (history s)) ≤ historyPosition s + 1 →
  history (run s (pushes us)) = history s ++ us
  ∧ historyPosition (run s (pushes us)) = historyPosition s + Z.of_nat (length us).
Proof.
  revert s. induction us as [|u us IH]; intros s Hpos Hlen.
  - simpl. rewrite app_nil_r. split; [done|lia].
  - unfold run, pushes in *. cbn [fmap list_fmap foldl step].
    rewrite commitUrl_default by done.
    destruct (IH (set_nav (slice (history s) 0 (historyPosition s + 1) ++ [u])
                          (historyPosition s + 1) u s)) as [Hh Hp].
    + simpl. lia.
    + simpl. rewrite length_app, slice_0, length_take by lia. simpl. lia.
    + rewrite Hh, Hp. simpl. rewrite slice_0, take_ge by lia.
      rewrite <- app_assoc. split; [done|lia].
Qed.

Lemma refreshed_mirrors s : mirrors (refreshed s).
Proof. unfold refreshed. split; simpl; [lia|]. by apply index_Some. Qed.

(** A committed transition keeps a mirrored history mirrored. *)
Lemma step_mirrors s t : mirrors s → tracked s t → mirrors (step s t).
Proof.
  intros [Hrange Haddr] Ht. destruct t as [u action d| | |u]; cbn [step].
  - destruct (decide (action = "POP")) as [->|Hpop].
    { specialize (Ht eq_refl). rewrite commitUrl_pop. split; cbn; [|done].
      by apply index_lt in Ht. }
    destruct (decide (action = "REPLACE")) as [->|Hrep].
    + rewrite commitUrl_replace, slice_0, slice_from_nonneg by lia.
      unfold mirrors, set_nav; cbn [history historyPosition urlInAddressBar].
      split.
      * rewrite !length_app, length_take, length_drop. cbn [length]. lia.
      * apply index_Some. split; [lia|].
        apply list_lookup_middle. rewrite length_take. lia.
    + rewrite commitUrl_default, slice_0 by (done || lia).
      unfold mirrors, set_nav; cbn [history historyPosition urlInAddressBar].
      split.
      * rewrite length_app, length_take. cbn [length]. lia.
      * apply index_Some. split; [lia|].
        replace [u] with (u :: []) by done.
        apply list_lookup_middle. rewrite length_take. lia.
  - apply refreshed_mirrors.
  - unfold sent. split; cbn; [lia|]. by apply index_Some.
  - apply refreshed_mirrors.
Qed.

Lemma run_mirrors ts s : mirrors s → all_tracked s ts → mirrors (run s ts).
Proof.
  revert s. induction ts as [|t ts IH]; intros s Hm Ht; [done|].
  destruct Ht as [Ht Hts]. apply IH; [by apply step_mirrors|done].
Qed.

(** C4, as stated, fails.  One [PUSH] from the history the constructor
    builds leaves the position at 1, not at 0; one [PUSH] from a
    refreshed history leaves two entries; and with a position below -1
    the entries kept are not the ones up to the position. *)
Lemma pushes_from_reset_overshoot :
  (let s := run Samples.fresh (pushes ["/a"]) in
   length (history s) = 1%nat ∧ historyPosition s = 1
   ∧ ¬ (historyPosition s = Z.of_nat 1 - 1 ∧ length (history s) = 1%nat))
  ∧ (let s := run (refreshed Samples.fresh) (pushes ["/a"]) in
     length (history s) = 2%nat ∧ historyPosition s = 1)
  ∧ history (commitUrl "/u" "PUSH" 0
               (set_nav ["/a"; "/b"; "/c"] (-2) "/c" Samples.fresh))
    = ["/a"; "/b"; "/u"].
Proof.
  split; [|split]; [|by vm_compute|by vm_compute].
  split; [by vm_compute|]. split; [by vm_compute|].
  intros [Hpos _]. vm_compute in Hpos. discriminate.
Qed.

(** C4, amended.  A [PUSH] advances the position by one and shows the
    url; from a position of -1 or more it keeps the entries up to the
    position and appends the url.  [N] pushes from a refreshed history
    (one entry, position 0) leave [N + 1] entries and the position
    [N]. *)
Theorem push_truncates_appends_advances (s : State) (u : string) (d : Z)
    (us : list string) :
  historyPosition (commitUrl u "PUSH" d s) = historyPosition s + 1
  ∧ urlInAddressBar (commitUrl u "PUSH" d s) = u
  ∧ (-1 ≤ historyPosition s →
     history (commitUrl u "PUSH" d s)
       = take (Z.to_nat (historyPosition s + 1)) (history s) ++ [u])
  ∧ (let s' := run (refreshed s) (pushes us) in
     history s' = refreshUrl s :: us
     ∧ length (history s') = S (length us)
     ∧ historyPosition s' = Z.of_nat (length us)).
Proof.
  rewrite commitUrl_default by done. cbn [set_nav history historyPosition urlInAddressBar].
  split; [done|]. split; [done|]. split.
  - intros Hpos. by rewrite slice_0 by lia.
  - destruct (run_pushes_at_end us (refreshed s)) as [Hh Hp];
      [simpl; lia..|]. rewrite Hh, Hp. simpl. split; [done|]. split; [done|lia].
Qed.

Lemma push_truncates_appends_advances_witness :
  history (commitUrl "/d" "PUSH" 0 (set_nav ["/"; "/a"; "/b"; "/c"] 1 "/a" Samples.fresh))
    = ["/"; "/a"; "/d"]
  ∧ historyPosition (run (refreshed Samples.fresh) (pushes ["/a"; "/b"])) = 2.
Proof.
  destruct (push_truncates_appends_advances
              (set_nav ["/"; "/a"; "/b"; "/c"] 1 "/a" Samples.fresh)
              "/d" 0 [])
    as (_ & _ & Hkeep & _).
  destruct (push_truncates_appends_advances Samples.fresh "/d" 0 ["/a"; "/b"])
    as (_ & _ & _ & _ & _ & Hreset).
  split; [|exact Hreset]. apply Hkeep. simpl. lia.
Defined.

(** C5, as stated, fails: a [REPLACE] on the empty history the
    constructor builds adds an entry. *)
Lemma replace_on_empty_history_grows :
  length (history Samples.fresh) = 0%nat
  ∧ history (commitUrl "/a" "REPLACE" 0 Samples.fresh) = ["/a"]
  ∧ length (history (commitUrl "/a" "REPLACE" 0 Samples.fresh)) = 1%nat.
Proof. by vm_compute. Qed.

(** C5, amended.  When the position is the index of an entry, a
    [REPLACE] overwrites that entry with the url and changes neither
    the number of entries nor the position. *)
Theorem replace_overwrites_current_entry (s : State) (u : string) (d : Z) :
  0 ≤ historyPosition s < Z.of_nat (length (history s)) →
  let s' := commitUrl u "REPLACE" d s in
  history s' = <[Z.to_nat (historyPosition s) := u]> (history s)
  ∧ length (history s') = length (history s)
  ∧ historyPosition s' = historyPosition s
  ∧ urlInAddressBar s' = u.
Proof.
  intros Hrange s'. subst s'.
  rewrite commitUrl_replace, slice_0, slice_from_nonneg by lia.
  cbn [set_nav history historyPosition urlInAddressBar].
  assert (Hh : take (Z.to_nat (historyPosition s)) (history s) ++ [u]
                 ++ drop (Z.to_nat (historyPosition s + 1)) (history s)
               = <[Z.to_nat (historyPosition s) := u]> (history s)).
  { rewrite insert_take_drop by lia. do 3 f_equal. lia. }
  rewrite Hh. by rewrite length_insert.
Qed.

Lemma replace_overwrites_current_entry_witness :
  history (commitUrl "/z" "REPLACE" 0 Samples.visited) = ["/"; "/a"; "/b"; "/z"]
  ∧ historyPosition (commitUrl "/z" "REPLACE" 0 Samples.visited) = 3.
Proof.
  destruct (replace_overwrites_current_entry Samples.visited "/z" 0)
    as (Hh & _ & Hp & _); [simpl; lia|].
  split; [exact Hh|exact Hp].
Defined.

(** C6.  A [POP] adds its delta, negative or not, to the position and
    shows the url it carries; the entries stay as they are.  From
    position 3, a delta of -2 leads to position 1. *)
Theorem pop_moves_position_only (s : State) (u : string) (delta : Z) :
  historyPosition (commitUrl u "POP" delta s) = historyPosition s + delta
  ∧ urlInAddressBar (commitUrl u "POP" delta s) = u
  ∧ history (commitUrl u "POP" delta s) = history s
  ∧ historyPosition Samples.visited = 3
  ∧ historyPosition (commitUrl u "POP" (-2) Samples.visited) = 1
  ∧ history (commitUrl u "POP" (-2) Samples.visited) = history Samples.visited.
Proof. by rewrite !commitUrl_pop. Qed.

(** C7, as stated, fails.  After the first [PUSH] the history built by
    the constructor has one entry and the position 1; and a [POP]
    shows the url it carries, whatever the entry at the new position
    is. *)
Lemma first_push_leaves_the_entries :
  (let s := run (initialState "https://new.csb.app/") [Commit "/a" "PUSH" 0] in
   history s = ["/a"] ∧ historyPosition s = 1 ∧ ¬ mirrors s)
  ∧ (let s := run Samples.visited [Commit "/elsewhere" "POP" (-1)] in
     index (history s) (historyPosition s) = Some "/b"
     ∧ urlInAddressBar s = "/elsewhere").
Proof.
  split; [|by vm_compute].
  split; [by vm_compute|]. split; [by vm_compute|].
  intros [[_ Hlt] _]. vm_compute in Hlt. discriminate.
Qed.

(** C7, amended.  A refresh leaves a history whose position is the
    index of an entry, that entry being the url shown.  From any such
    history, every run of [PUSH], [REPLACE] and refresh transitions, of
    sent urls and sandbox changes, and of [POP]s whose target entry
    exists and is the url they carry, ends in such a history. *)
Theorem committed_transitions_keep_mirror (s0 : State) :
  mirrors (refreshed s0)
  ∧ ∀ s ts, mirrors s → all_tracked s ts → mirrors (run s ts).
Proof.
  split; [apply refreshed_mirrors|].
  intros s ts. apply run_mirrors.
Qed.

Lemma committed_transitions_keep_mirror_witness :
  mirrors (run (refreshed Samples.fresh)
             [Commit "/a" "PUSH" 0; Commit "/b" "PUSH" 0; Commit "/a" "POP" (-1);
              Commit "/c" "REPLACE" 0; Refresh; Commit "/d" "PUSH" 0; SendUrl;
              SandboxChange "https://other.csb.app/"; Commit "/e" "PUSH" 0]).
Proof.
  destruct (committed_transitions_keep_mirror Samples.fresh) as [Href Hrun].
  apply Hrun; [exact Href|].
  repeat split; intros; try discriminate; reflexivity.
Defined.

End NavigationHistoryFacts.

(** ** Execution requests and frame messages *)

Section PreviewFacts.

Context `{Collaborators}.

Import SnapshotDiffer NavigationHistory.

(** [Object.keys(diff).length > 0] tells whether the diff has an entry. *)
Lemma keys_nonempty {V} (m : gmap string V) :
  bool_decide (0 < Z.of_nat (length (keys m))) = bool_decide (m ≠ ∅).
Proof.
  apply bool_decide_ext. unfold keys. rewrite length_fmap.
  rewrite <- map_to_list_empty_iff.
  destruct (map_to_list m); simpl; split; intros; try done; lia.
Qed.

Local Opaque getModulesToSend getDiff.

(** A request of a server preview that is not turned into a reload. *)
Lemma executeCodeImmediately_server_sync initialRender this :
  serverPreview this = true →
  synchronises initialRender this = true →
  let snapshot := getModulesToSend this in
  let diff := getDiff (lastModules (lastSent this)) snapshot in
  executeCodeImmediately initialRender this =
    Returned ()
      (if bool_decide (containerStatus (props this) = Some sandbox_started)
       then with_lastModules snapshot this else this)
      (Dispatch ErrorClear
         :: (if onClearErrors (props this) then [OnClearErrors] else [])
         ++ (if isInProjectView (props this) then []
             else [Dispatch (Evaluate "history.pushState({}, null, '/')")])
         ++ (if bool_decide (diff ≠ ∅) && bool_decide (is_Some (socket this))
             then [SocketEmit "sandbox:update" (Updates diff)] else [])).
Proof.
  intros Hserver Hsync snapshot diff. subst snapshot diff.
  unfold synchronises in Hsync. apply negb_true_iff in Hsync.
  destruct this as [pr st sp ls sock]. simpl in *. subst sp.
  unfold executeCodeImmediately, mbind, M_bind, get. simpl. rewrite Hsync.
  rewrite andb_false_r, keys_nonempty. simpl.
  unfold clearErrors, mbind, M_bind, get, perform, when, mret, M_ret,
    set_lastSent_modules, put, socket_emit, with_lastModules; simpl.
  destruct (onClearErrors pr), (isInProjectView pr), sock; simpl;
    repeat (case_bool_decide; simpl); try done; exfalso; eauto.
Qed.

(** A request that is turned into a reload of the frame. *)
Lemma executeCodeImmediately_server_reload initialRender this :
  serverPreview this = true →
  synchronises initialRender this = false →
  executeCodeImmediately initialRender this =
    Returned ()
      (with_state (refreshed (state this)) this)
      (Dispatch ErrorClear
         :: (if onClearErrors (props this) then [OnClearErrors] else [])
         ++ [SetFrameSrc (if decide (refreshUrl (state this) = "")
                          then defaultUrl this else refreshUrl (state this))]).
Proof.
  intros Hserver Hsync.
  unfold synchronises in Hsync. apply negb_false_iff in Hsync.
  destruct this as [pr st sp ls sock]. simpl in *. subst sp.
  unfold executeCodeImmediately, mbind, M_bind, get. simpl. rewrite Hsync.
  rewrite andb_false_r. simpl.
  unfold clearErrors, handleRefresh, setState, mbind, M_bind, get, perform, when,
    mret, M_ret, put, with_state; simpl.
  by destruct (onClearErrors pr).
Qed.

(** The entry the [forEach] leaves at a path is the one of the last
    module that resolves to it. *)
Lemma collect_lookup (sb : Sandbox Directory) (ms : list SandboxModule) (p : string) :
  collect sb ms !! p =
    module_entry p <$> last (filter (λ m, resolved sb m = Some p) ms).
Proof.
  unfold collect. induction ms as [|m ms IH] using rev_ind.
  - cbn. apply lookup_empty.
  - rewrite foldl_snoc, filter_app, last_app. unfold add_module at 1.
    destruct (decide (resolved sb m = Some p)) as [Hm|Hm].
    + rewrite Hm, lookup_insert_eq, filter_cons_True by done. done.
    + rewrite filter_cons_False by done. cbn [filter list_filter last].
      rewrite <- IH. destruct (resolved sb m) as [q|] eqn:Hq.
      * rewrite lookup_insert_ne by congruence.
        by destruct (foldl (add_module sb) ∅ ms !! p).
      * by destruct (foldl (add_module sb) ∅ ms !! p).
Qed.

(** A module without a path leaves the collected object as it is. *)
Lemma collect_skip (sb : Sandbox Directory) (l1 l2 : list SandboxModule) (m : SandboxModule) :
  resolved sb m = None → collect sb (l1 ++ m :: l2) = collect sb (l1 ++ l2).
Proof.
  intros Hm. apply map_eq. intros p.
  rewrite !collect_lookup, !filter_app, filter_cons_False; [done|].
  by rewrite Hm.
Qed.

Local Transparent getModulesToSend.

Lemma getModulesToSend_lookup (this : BasePreview) (p : string) :
  let sb := sandbox (props this) in
  getModulesToSend this !! p =
    match collect sb (modules sb) !! p with
    | Some e => Some e
    | None =>
        match default ∅ (extraModules (props this)) !! p with
        | Some x => Some (extra_entry x)
        | None => if decide (p = "/package.json") then Some (package_json sb) else None
        end
    end.
Proof.
  intros sb. unfold getModulesToSend. fold sb.
  set (merged := collect sb (modules sb) ∪ (extra_entry <$> default ∅ (extraModules (props this)))).
  assert (Hm : ∀ q, merged !! q =
                 match collect sb (modules sb) !! q with
                 | Some e => Some e
                 | None => extra_entry <$> default ∅ (extraModules (props this)) !! q
                 end).
  { intros q. unfold merged. rewrite lookup_union, lookup_fmap.
    by destruct (collect sb (modules sb) !! q),
                (default ∅ (extraModules (props this)) !! q). }
  pose proof (Hm "/package.json") as Hpkg.
  destruct (merged !! "/package.json") as [e|] eqn:He.
  - rewrite Hm. destruct (collect sb (modules sb) !! p) eqn:Hc; [done|].
    destruct (default ∅ (extraModules (props this)) !! p) eqn:Hx; [done|].
    case_decide as Hp; [|done]. subst p. by rewrite Hc, Hx in Hpkg.
  - destruct (decide (p = "/package.json")) as [->|Hp].
    + rewrite lookup_insert_eq.
      destruct (collect sb (modules sb) !! "/package.json"); [done|].
      by destruct (default ∅ (extraModules (props this)) !! "/package.json").
    + rewrite lookup_insert_ne, Hm by done.
      destruct (collect sb (modules sb) !! p); [done|].
      by destruct (default ∅ (extraModules (props this)) !! p).
Qed.

Local Opaque getModulesToSend.

(** Going through a short list of effects, one by one. *)
Ltac each_effect He :=
  repeat (apply elem_of_cons in He as [He|He]; [try discriminate He; try subst|]);
  try (by apply elem_of_nil in He).

(** C8, amended.  A server preview emits [sandbox:update] only with a
    diff that has an entry.  A request that is not turned into a reload
    of the frame replaces the baseline by the current snapshot when the
    container status is [sandbox-started] and leaves it as it is
    otherwise; a request turned into a reload ([forceRefresh], not the
    initial render) emits nothing on the socket and leaves the
    baseline as it is. *)
Theorem baseline_follows_started_status (initialRender : bool) (this : BasePreview) :
  serverPreview this = true →
  let r := executeCodeImmediately initialRender this in
  let snapshot := getModulesToSend this in
  let diff := getDiff (lastModules (lastSent this)) snapshot in
  (∀ channel payload, SocketEmit channel payload ∈ effects r →
     channel = "sandbox:update" ∧ payload = Updates diff ∧ diff ≠ ∅
     ∧ synchronises initialRender this = true)
  ∧ lastModules (lastSent (final r)) =
      (if synchronises initialRender this
          && bool_decide (containerStatus (props this) = Some sandbox_started)
       then snapshot else lastModules (lastSent this)).
Proof.
  intros Hserver r snapshot diff. subst r.
  destruct (synchronises initialRender this) eqn:Hsync.
  - rewrite executeCodeImmediately_server_sync by done. fold snapshot diff.
    cbn [effects final andb]. split.
    + intros channel payload He.
      destruct (onClearErrors (props this)), (isInProjectView (props this));
        case_bool_decide as Hd; simpl in He;
        destruct (bool_decide (is_Some (socket this))); simpl in He;
        each_effect He; by inversion He.
    + by case_bool_decide.
  - rewrite executeCodeImmediately_server_reload by done.
    cbn [effects final andb]. split; [|done].
    intros channel payload He.
    destruct (onClearErrors (props this)); simpl in He; each_effect He.
Qed.

(** C9, amended.  Without a socket, a [socket:message] of the frame is
    dropped: the handler returns, nothing is emitted, nothing is
    reported and the instance is as it was.  An execution request of a
    server preview does not throw either; it emits nothing on the
    socket and reports nothing. *)
Theorem send_without_socket_is_dropped (this : BasePreview) :
  socket this = None →
  (∀ channel message source,
     silent this
       (handleMessage (Some {| codesandbox := true; body := SocketMessage channel message |})
                      source this))
  ∧ (∀ initialRender, serverPreview this = true →
       let r := executeCodeImmediately initialRender this in
       throws r = false ∧ reports_error r = false
       ∧ ∀ e, e ∈ effects r → is_socket_emit e = false).
Proof.
  intros Hsock. split.
  - intros channel message source. unfold silent.
    destruct this as [pr st sp ls sock]. simpl in Hsock. subst sock.
    by destruct source.
  - intros initialRender Hserver r. subst r.
    destruct (synchronises initialRender this) eqn:Hsync.
    + rewrite executeCodeImmediately_server_sync by done.
      rewrite Hsock, andb_false_r.
      unfold reports_error. cbn [effects throws].
      split; [done|].
      destruct (onClearErrors (props this)), (isInProjectView (props this));
        (split; [done|]); intros e He; simpl in He; each_effect He; done.
    + rewrite executeCodeImmediately_server_reload by done.
      unfold reports_error. cbn [effects throws].
      split; [done|].
      destruct (onClearErrors (props this));
        (split; [done|]); intros e He; simpl in He; each_effect He; done.
Qed.

(** C10.  The snapshot holds, at a path some module of the sandbox
    resolves to, the entry of the last such module, whatever
    [extraModules] holds there; at another path, the entry of
    [extraModules] if there is one, and the generated [/package.json]
    at that path otherwise.  A module without a path is passed over:
    the modules are collected as if it were not in the list. *)
Theorem getModulesToSend_sandbox_modules_win (this : BasePreview) (p : string) :
  let sb := sandbox (props this) in
  getModulesToSend this !! p =
    match last (filter (λ m, resolved sb m = Some p) (modules sb)) with
    | Some m => Some (module_entry p m)
    | None =>
        match default ∅ (extraModules (props this)) !! p with
        | Some x => Some (extra_entry x)
        | None => if decide (p = "/package.json") then Some (package_json sb) else None
        end
    end
  ∧ (∀ m, m ∈ modules sb → resolved sb m = Some p →
       ∃ m', m' ∈ modules sb ∧ resolved sb m' = Some p
             ∧ getModulesToSend this !! p = Some (module_entry p m'))
  ∧ (∀ l1 m l2, modules sb = l1 ++ m :: l2 →
       getModulePath (modules sb) (directories sb) (module_id m) = None →
       collect sb (modules sb) = collect sb (l1 ++ l2)).
Proof.
  intros sb.
  assert (Hlookup : getModulesToSend this !! p =
    match last (filter (λ m, resolved sb m = Some p) (modules sb)) with
    | Some m => Some (module_entry p m)
    | None =>
        match default ∅ (extraModules (props this)) !! p with
        | Some x => Some (extra_entry x)
        | None => if decide (p = "/package.json") then Some (package_json sb) else None
        end
    end).
  { rewrite getModulesToSend_lookup. fold sb. rewrite collect_lookup.
    by destruct (last _). }
  split; [exact Hlookup|]. split.
  - intros m Hin Hm.
    destruct (last (filter (λ m, resolved sb m = Some p) (modules sb))) as [m'|] eqn:Hlast.
    + exists m'. apply last_Some_elem_of, list_elem_of_filter in Hlast as [? ?]. done.
    + apply last_None in Hlast.
      assert (Hf : m ∈ filter (λ m, resolved sb m = Some p) (modules sb))
        by by apply list_elem_of_filter.
      rewrite Hlast in Hf. by apply elem_of_nil in Hf.
  - intros l1 m l2 Hmods Hnone. rewrite Hmods at 1. apply collect_skip.
    unfold resolved. by rewrite Hnone.
Qed.

End PreviewFacts.

(** ** The properties at the sample previews *)

Section SampleRuns.

Import SnapshotDiffer NavigationHistory Samples.

Let run_request := @executeCodeImmediately collaborators.
Let snapshot := @getModulesToSend collaborators.
Let on_message := @handleMessage collaborators.

(** The specification's scenarios of the differ. *)
Example getDiff_scenario_changed_and_new :
  getDiff one_file two_files = two_files.
Proof. reflexivity. Qed.

Example getDiff_scenario_removed :
  getDiff two_files one_file
  = <[ "/b.js" := tombstone "/b.js" ]> {[ "/a.js" := entry_of "/a.js" "1" false ]}.
Proof. reflexivity. Qed.

(** C8, as stated, fails: with [forceRefresh] set, a request that is
    not the initial render reloads the frame and leaves the baseline
    as it was, although the container status is [sandbox-started]. *)
Lemma forced_refresh_keeps_baseline :
  let this := server_preview true (Some sandbox_started) in
  let r := run_request false this in
  serverPreview this = true
  ∧ containerStatus (props this) = Some sandbox_started
  ∧ lastModules (lastSent (final r)) = lastModules (lastSent this)
  ∧ lastModules (lastSent (final r)) ≠ snapshot this.
Proof.
  repeat split; try reflexivity.
  intros Heq. apply (f_equal (λ m, m !! "/index.js")) in Heq.
  vm_compute in Heq. discriminate.
Qed.

Lemma baseline_follows_started_status_witness :
  let this := server_preview false (Some sandbox_started) in
  lastModules (lastSent (final (run_request false this))) = snapshot this.
Proof.
  intros this.
  destruct (@baseline_follows_started_status collaborators false this eq_refl)
    as [_ Hbase].
  exact Hbase.
Defined.

(** C9, as stated, fails: a browser preview has no socket; a
    [socket:message] it receives is dropped without a report. *)
Lemma socket_message_without_socket_is_silent :
  let this := browser_preview in
  let r := on_message
             (Some {| codesandbox := true;
                      body := SocketMessage "shell:in" [("data", "ls")] |})
             true this in
  socket this = None
  ∧ r = Returned () this []
  ∧ reports_error r = false.
Proof. repeat split. Qed.

Lemma send_without_socket_is_dropped_witness :
  silent browser_preview
    (on_message
       (Some {| codesandbox := true;
                body := SocketMessage "shell:in" [("data", "ls")] |})
       true browser_preview)
  ∧ reports_error (run_request false server_preview_without_socket) = false.
Proof.
  split.
  - destruct (@send_without_socket_is_dropped collaborators browser_preview eq_refl)
      as [Hdrop _].
    apply Hdrop.
  - destruct (@send_without_socket_is_dropped collaborators
                server_preview_without_socket eq_refl)
      as [_ Hquiet].
    destruct (Hquiet false eq_refl) as (_ & Hreport & _). exact Hreport.
Defined.

Lemma getModulesToSend_sandbox_modules_win_witness :
  snapshot browser_preview !! "/index.js"
    = Some (module_entry "/index.js" (index_js "render()"))
  ∧ @collect collaborators (a_sandbox "render()") [index_js "render()"; lost_module]
    = @collect collaborators (a_sandbox "render()") [index_js "render()"].
Proof.
  destruct (@getModulesToSend_sandbox_modules_win collaborators browser_preview "/index.js")
    as (Hlookup & _ & Hskip).
  split; [exact Hlookup|].
  exact (Hskip [index_js "render()"] lost_module [] eq_refl eq_refl).
Defined.

End SampleRuns.

(** * Further properties *)

(** ** More on the differ and on the snapshot *)

Section SnapshotFacts.

Import SnapshotDiffer.

(** X1.  The diff is empty exactly when the two snapshots have the
    same paths and the same code at each of them. *)
Theorem getDiff_empty_iff_same_code (a b : IModulesByPath) :
  getDiff a b = ∅ ↔ code <$> a = code <$> b.
Proof.
  split.
  - intros Hd. apply map_eq. intros p. rewrite !lookup_fmap.
    pose proof (f_equal (λ m, m !! p) Hd) as Hp. simpl in Hp.
    rewrite getDiff_lookup, lookup_empty in Hp.
    destruct (b !! p) as [eb|], (a !! p) as [ea|]; simpl; try done.
    case_decide; [by f_equal|done].
  - intros Hc. apply map_eq. intros p. rewrite getDiff_lookup, lookup_empty.
    pose proof (f_equal (λ m, m !! p) Hc) as Hp. simpl in Hp.
    rewrite !lookup_fmap in Hp.
    destruct (b !! p) as [eb|], (a !! p) as [ea|]; simpl in Hp; try done.
    rewrite decide_True; [done|]. congruence.
Qed.

(** X2.  Every entry of a diff carries its key as path and sits at a
    path of one of the two snapshots. *)
Theorem getDiff_entries_keyed (a b : IModulesByPath) :
  keyed (getDiff a b) ∧ dom (getDiff a b) ⊆ dom a ∪ dom b.
Proof.
  split.
  - intros p e He. rewrite getDiff_lookup in He.
    destruct (b !! p) as [eb|], (a !! p) as [ea|]; try case_decide;
      simplify_eq; done.
  - intros p [e He]%elem_of_dom. rewrite getDiff_lookup in He.
    apply elem_of_union. rewrite !elem_of_dom.
    destruct (b !! p) as [eb|], (a !! p) as [ea|]; try done; eauto.
Qed.

(** X3.  When no entry of [next] has the code [null], the tombstones
    of the diff are exactly at the paths [previous] has and [next]
    lacks. *)
Theorem getDiff_tombstones_are_removals (previous next : IModulesByPath) (p : string) :
  live next = next →
  (∃ e, getDiff previous next !! p = Some e ∧ code e = None)
  ↔ is_Some (previous !! p) ∧ next !! p = None.
Proof.
  intros Hlive.
  assert (Hnn : ∀ e, next !! p = Some e → code e ≠ None).
  { intros e He. assert (Hl : live next !! p = Some e) by by rewrite Hlive.
    rewrite live_lookup, He in Hl. by case_decide. }
  rewrite getDiff_lookup. split.
  - intros (e & He & Hc).
    destruct (next !! p) as [en|] eqn:Hn, (previous !! p) as [ep|]; try done; eauto.
    + case_decide; [done|]. simplify_eq. by destruct (Hnn en).
    + simplify_eq. by destruct (Hnn en).
  - intros [[ep Hp] Hn]. rewrite Hn, Hp. by exists (tombstone p).
Qed.

Lemma getDiff_tombstones_are_removals_witness :
  (∃ e, getDiff Samples.two_files Samples.one_file !! "/b.js" = Some e ∧ code e = None)
  ↔ is_Some (Samples.two_files !! "/b.js") ∧ Samples.one_file !! "/b.js" = None.
Proof.
  apply (getDiff_tombstones_are_removals Samples.two_files Samples.one_file "/b.js").
  reflexivity.
Defined.

(** X4.  Only the code of the previous snapshot matters to the diff:
    two previous snapshots with the same paths and codes give the
    same diff. *)
Theorem getDiff_reads_previous_code_only (a a' b : IModulesByPath) :
  code <$> a = code <$> a' → getDiff a b = getDiff a' b.
Proof.
  intros Hc. apply map_eq. intros p. rewrite !getDiff_lookup.
  pose proof (f_equal (λ m, m !! p) Hc) as Hp. simpl in Hp.
  rewrite !lookup_fmap in Hp.
  destruct (b !! p) as [eb|], (a !! p) as [ea|], (a' !! p) as [ea'|];
    simpl in Hp; try done.
  simplify_eq. by rewrite Hp.
Qed.

Lemma getDiff_reads_previous_code_only_witness :
  getDiff Samples.text_a Samples.two_files = getDiff Samples.binary_a Samples.two_files.
Proof.
  apply (getDiff_reads_previous_code_only Samples.text_a Samples.binary_a Samples.two_files).
  reflexivity.
Defined.

(** The diff with nothing before is the snapshot itself when its
    entries carry their keys. *)
Lemma getDiff_empty_keyed (b : IModulesByPath) : keyed b → getDiff ∅ b = b.
Proof.
  intros Hk. apply map_eq. intros p. rewrite getDiff_lookup, lookup_empty.
  destruct (b !! p) as [e|] eqn:Hb; [|done]. f_equal.
  specialize (Hk p e Hb). simpl in Hk. destruct e; simpl in *. by subst.
Qed.

End SnapshotFacts.

Section ModulesToSendFacts.

Context `{Collaborators}.

Import SnapshotDiffer.

(** Nothing but the props is read to build the snapshot. *)
Lemma getModulesToSend_props (this this' : BasePreview) :
  props this = props this' → getModulesToSend this = getModulesToSend this'.
Proof. intros Hp. unfold getModulesToSend. by rewrite Hp. Qed.

(** X5.  The snapshot always has a [/package.json]: the generated one
    when neither the sandbox nor [extraModules] gives one; and the
    generated file is all that is added to what they give. *)
Theorem getModulesToSend_has_package_json (this : BasePreview) :
  let sb := sandbox (props this) in
  let given := collect sb (modules sb) ∪ (extra_entry <$> default ∅ (extraModules (props this))) in
  is_Some (getModulesToSend this !! "/package.json")
  ∧ (given !! "/package.json" = None →
     getModulesToSend this !! "/package.json" = Some (package_json sb))
  ∧ (∀ p e, given !! p = Some e → getModulesToSend this !! p = Some e)
  ∧ (∀ p, p ≠ "/package.json" → getModulesToSend this !! p = given !! p).
Proof.
  intros sb given. unfold getModulesToSend. fold sb given.
  destruct (given !! "/package.json") as [e|] eqn:He.
  - repeat split; try done; by exists e.
  - repeat split.
    + rewrite lookup_insert_eq. by eexists.
    + intros _. apply lookup_insert_eq.
    + intros p e Hp. rewrite lookup_insert_ne; [done|]. congruence.
    + intros p Hp. by rewrite lookup_insert_ne.
Qed.

Lemma collect_keyed (sb : Sandbox Directory) (ms : list SandboxModule) :
  keyed (collect sb ms).
Proof.
  intros p e He. rewrite collect_lookup in He.
  destruct (last _) as [m|]; simpl in He; [|done].
  injection He as <-. reflexivity.
Qed.

(** X6.  When the entries of [extraModules] carry their keys as path,
    so do the entries of the snapshot, and the diff of the snapshot
    with nothing before is the snapshot itself. *)
Theorem getModulesToSend_keyed (this : BasePreview) :
  map_Forall (λ p x, extra_path x = p) (default ∅ (extraModules (props this))) →
  keyed (getModulesToSend this)
  ∧ getDiff ∅ (getModulesToSend this) = getModulesToSend this.
Proof.
  intros Hx.
  assert (Hk : keyed (getModulesToSend this)).
  { intros p e He. rewrite getModulesToSend_lookup in He.
    destruct (collect _ _ !! p) as [e'|] eqn:Hc.
    - simplify_eq. eapply collect_keyed. exact Hc.
    - destruct (default ∅ (extraModules (props this)) !! p) as [x|] eqn:Hp.
      + simplify_eq. simpl. exact (Hx p x Hp).
      + case_decide; by simplify_eq. }
  split; [done|]. by apply getDiff_empty_keyed.
Qed.

End ModulesToSendFacts.

(** ** More on the navigation history *)

Section NavigatorFacts.

Import NavigationHistory Navigator.

Lemma set_nav_same (s : State) :
  set_nav (history s) (historyPosition s) (urlInAddressBar s) s = s.
Proof. by destruct s. Qed.

(** The entries after a [REPLACE] at the index of an entry. *)
Lemma commitUrl_replace_insert (s : State) (u : string) (d : Z) :
  0 ≤ historyPosition s < Z.of_nat (length (history s)) →
  commitUrl u "REPLACE" d s
  = set_nav (<[Z.to_nat (historyPosition s) := u]> (history s)) (historyPosition s) u s.
Proof.
  intros Hrange.
  rewrite commitUrl_replace, slice_0, slice_from_nonneg by lia.
  f_equal. rewrite insert_take_drop by lia. do 3 f_equal. lia.
Qed.

(** X7.  Two [POP]s in a row are one [POP] of the sum of their deltas
    that shows the url of the second; a [POP] undone by the opposite
    delta, with the address shown before, gives back the state. *)
Theorem pops_add_up (s : State) (u1 u2 : string) (d1 d2 : Z) :
  commitUrl u2 "POP" d2 (commitUrl u1 "POP" d1 s) = commitUrl u2 "POP" (d1 + d2) s
  ∧ commitUrl (urlInAddressBar s) "POP" (- d1) (commitUrl u1 "POP" d1 s) = s.
Proof.
  rewrite !commitUrl_pop. unfold set_nav; cbn [history historyPosition urlInAddressBar
    frameInitialized url overlayMessage hibernated sseError showScreenshot].
  split.
  - by rewrite Z.add_assoc.
  - replace (historyPosition s + d1 + - d1) with (historyPosition s) by lia.
    by destruct s.
Qed.

(** X8.  After a [PUSH] from a position that is not negative, one can
    go back and cannot go forward. *)
Theorem push_enables_back_only (s : State) (u : string) (d : Z) :
  0 ≤ historyPosition s →
  canGoBack (commitUrl u "PUSH" d s) = true
  ∧ canGoForward (commitUrl u "PUSH" d s) = false.
Proof.
  intros Hpos. rewrite commitUrl_default, slice_0 by (done || lia).
  unfold canGoBack, canGoForward; cbn [set_nav history historyPosition].
  split.
  - apply bool_decide_eq_true. lia.
  - apply bool_decide_eq_false. rewrite length_app, length_take. simpl. lia.
Qed.

Lemma push_enables_back_only_witness :
  canGoBack (commitUrl "/a" "PUSH" 0 Samples.fresh) = true
  ∧ canGoForward (commitUrl "/a" "PUSH" 0 Samples.fresh) = false.
Proof. apply (push_enables_back_only Samples.fresh "/a" 0). simpl. lia. Defined.

(** X9.  At the index of an entry, a page that was pushed and left by
    going back one step is forgotten by the next [PUSH]: the state is
    the one the second [PUSH] alone gives. *)
Theorem push_after_back_forgets (s : State) (u1 v u2 : string) (d1 d2 : Z) :
  0 ≤ historyPosition s < Z.of_nat (length (history s)) →
  commitUrl u2 "PUSH" d2 (commitUrl v "POP" (-1) (commitUrl u1 "PUSH" d1 s))
  = commitUrl u2 "PUSH" d2 s.
Proof.
  intros Hrange.
  rewrite (commitUrl_default u1), commitUrl_pop, !(commitUrl_default u2) by done.
  unfold set_nav; cbn [history historyPosition urlInAddressBar
    frameInitialized url overlayMessage hibernated sseError showScreenshot].
  replace (historyPosition s + 1 + -1) with (historyPosition s) by lia.
  rewrite !slice_0 by lia.
  rewrite take_app_le by (rewrite length_take; lia).
  by rewrite take_take, Nat.min_id.
Qed.

Lemma push_after_back_forgets_witness :
  commitUrl "/new" "PUSH" 0
    (commitUrl "/c" "POP" (-1) (commitUrl "/d" "PUSH" 0 Samples.visited))
  = commitUrl "/new" "PUSH" 0 Samples.visited.
Proof.
  apply (push_after_back_forgets Samples.visited "/d" "/c" "/new" 0 0).
  simpl. lia.
Defined.

(** X10.  At the index of an entry, of two [REPLACE]s in a row the
    second one wins. *)
Theorem replace_twice_keeps_last (s : State) (u1 u2 : string) (d1 d2 : Z) :
  0 ≤ historyPosition s < Z.of_nat (length (history s)) →
  commitUrl u2 "REPLACE" d2 (commitUrl u1 "REPLACE" d1 s) = commitUrl u2 "REPLACE" d2 s.
Proof.
  intros Hrange.
  rewrite (commitUrl_replace_insert s u1) by done.
  rewrite !commitUrl_replace_insert;
    cbn [set_nav history historyPosition]; rewrite ?length_insert; try done.
  unfold set_nav; cbn [history historyPosition urlInAddressBar
    frameInitialized url overlayMessage hibernated sseError showScreenshot].
  by rewrite list_insert_insert_eq.
Qed.

Lemma replace_twice_keeps_last_witness :
  commitUrl "/y" "REPLACE" 0 (commitUrl "/x" "REPLACE" 0 Samples.visited)
  = commitUrl "/y" "REPLACE" 0 Samples.visited.
Proof.
  apply (replace_twice_keeps_last Samples.visited "/x" "/y" 0 0). simpl. lia.
Defined.

(** X11.  A refresh done twice is a refresh done once, and after a
    refresh one can go neither back nor forward. *)
Theorem refresh_settles (s : State) :
  refreshed (refreshed s) = refreshed s
  ∧ canGoBack (refreshed s) = false
  ∧ canGoForward (refreshed s) = false.
Proof.
  split; [|done].
  assert (Hu : refreshUrl (refreshed s) = refreshUrl s).
  { unfold refreshed at 1. unfold refreshUrl at 1.
    cbn [set_nav history historyPosition urlInAddressBar].
    generalize (refreshUrl s). intros u.
    unfold index. rewrite decide_True by lia. unfold or_else. simpl.
    by case_decide. }
  unfold refreshed at 1. by rewrite Hu.
Qed.

(** X12.  An address typed in the bar ([updateUrl]) becomes the only
    entry when it is sent ([sendUrl]); when it is not, a refresh of a
    history standing on a non-empty entry brings that entry back. *)
Theorem typed_address_needs_sending (s : State) (typed : string) :
  sent (updateUrl typed s) = set_nav [typed] 0 typed s
  ∧ (∀ current, index (history s) (historyPosition s) = Some current →
       current ≠ "" →
       refreshed (updateUrl typed s) = set_nav [current] 0 current s).
Proof.
  split; [done|].
  intros current Hcur Hne. unfold refreshed, refreshUrl, updateUrl.
  cbn [set_nav history historyPosition urlInAddressBar
    frameInitialized url overlayMessage hibernated sseError showScreenshot].
  rewrite Hcur. cbn [or_else]. by rewrite decide_False.
Qed.

Lemma typed_address_needs_sending_witness :
  refreshed (updateUrl "/typed" Samples.visited) = set_nav ["/c"] 0 "/c" Samples.visited.
Proof.
  destruct (typed_address_needs_sending Samples.visited "/typed") as [_ Hback].
  by apply Hback.
Defined.

End NavigatorFacts.

(** ** More on execution requests and frame messages *)

Section RequestFacts.

Context `{Collaborators}.

Import SnapshotDiffer NavigationHistory.

Local Opaque getModulesToSend getDiff.

(** A request turned into a reload, for either kind of preview. *)
Lemma executeCodeImmediately_reload initialRender this :
  synchronises initialRender this = false →
  executeCodeImmediately initialRender this =
    Returned ()
      (with_state (refreshed (state this)) this)
      (clearing this
         ++ [SetFrameSrc (if decide (refreshUrl (state this) = "")
                          then defaultUrl this else refreshUrl (state this))]).
Proof.
  intros Hsync. unfold synchronises in Hsync. apply negb_false_iff in Hsync.
  destruct this as [[sb [cc fr] xm cm ip pv cs oi oc oa orz] st sp ls sock].
  unfold clearing. simpl in *.
  unfold executeCodeImmediately, mbind, M_bind, get. simpl. rewrite Hsync.
  unfold clearErrors, handleRefresh, setState, mbind, M_bind, get, perform, when,
    mret, M_ret, put, with_state; simpl.
  by destruct cc, sp, oc.
Qed.

(** A request of a browser preview that is not turned into a reload. *)
Lemma executeCodeImmediately_browser_sync initialRender this :
  serverPreview this = false →
  synchronises initialRender this = true →
  executeCodeImmediately initialRender this =
    if isInProjectView (props this)
    then Returned () this
           (clearing this ++ resetting this
              ++ [Dispatch (CompileMessage
                    (compile_message this (Some ("/" +:+ entry (sandbox (props this))))))])
    else match currentModule (props this) with
         | Some m =>
             Returned () this
               (clearing this ++ resetting this
                  ++ [Dispatch (CompileMessage
                        (compile_message this
                           (getModulePath (modules (sandbox (props this)))
                              (directories (sandbox (props this))) (module_id m))))])
         | None => Thrown TypeError this (clearing this ++ resetting this)
         end.
Proof.
  intros Hserver Hsync. unfold synchronises in Hsync. apply negb_true_iff in Hsync.
  destruct this as [[sb [cc fr] xm cm ip pv cs oi oc oa orz] st sp ls sock].
  unfold clearing, resetting, compile_message.
  simpl in *. subst sp.
  unfold executeCodeImmediately, mbind, M_bind, get. simpl. rewrite Hsync.
  unfold clearErrors, getRenderedModule, mbind, M_bind, get, perform, when, throw,
    mret, M_ret; simpl.
  by destruct cc, oc, pv, cm.
Qed.

Lemma clearing_server this :
  serverPreview this = true →
  clearing this
  = Dispatch ErrorClear :: (if onClearErrors (props this) then [OnClearErrors] else []).
Proof. intros Hs. unfold clearing. by rewrite Hs, andb_false_r. Qed.

(** Neither a [compile] message nor a socket emission is part of the
    clearing or of the resetting. *)
Lemma elem_of_clearing this e :
  e ∈ clearing this ++ resetting this → is_compile e = false ∧ is_socket_emit e = false.
Proof.
  unfold clearing, resetting. intros He.
  destruct (clearConsoleEnabled _ && _), (onClearErrors _), (isInProjectView _);
    simpl in He;
    repeat (apply elem_of_cons in He as [->|He]; [done|]);
    by apply elem_of_nil in He.
Qed.

(** The run of a server preview that synchronises, with the clearing
    and the resetting named. *)
Lemma executeCodeImmediately_server_sync' initialRender this :
  serverPreview this = true →
  synchronises initialRender this = true →
  let snapshot := getModulesToSend this in
  let diff := getDiff (lastModules (lastSent this)) snapshot in
  executeCodeImmediately initialRender this =
    Returned ()
      (if bool_decide (containerStatus (props this) = Some sandbox_started)
       then with_lastModules snapshot this else this)
      (clearing this ++ resetting this
         ++ (if bool_decide (diff ≠ ∅) && bool_decide (is_Some (socket this))
             then [SocketEmit "sandbox:update" (Updates diff)] else [])).
Proof.
  intros Hserver Hsync snapshot diff.
  rewrite executeCodeImmediately_server_sync by done.
  by rewrite clearing_server.
Qed.

(** X13.  A server preview that synchronises, has a socket and finds a
    diff with an entry emits it, once, as the last thing it does. *)
Theorem pending_diff_is_emitted (initialRender : bool) (this : BasePreview) :
  serverPreview this = true →
  synchronises initialRender this = true →
  is_Some (socket this) →
  let diff := getDiff (lastModules (lastSent this)) (getModulesToSend this) in
  diff ≠ ∅ →
  ∃ before,
    effects (executeCodeImmediately initialRender this)
    = before ++ [SocketEmit "sandbox:update" (Updates diff)]
    ∧ ∀ e, e ∈ before → is_socket_emit e = false.
Proof.
  intros Hserver Hsync Hsock diff Hdiff.
  rewrite executeCodeImmediately_server_sync' by done. fold diff.
  rewrite (bool_decide_eq_true_2 (diff ≠ ∅)) by done.
  rewrite (bool_decide_eq_true_2 (is_Some (socket this))) by done.
  cbn [effects andb].
  exists (clearing this ++ resetting this). split; [by rewrite app_assoc|].
  intros e He. by apply elem_of_clearing in He as [_ ?].
Qed.

(** The diff of a snapshot with itself. *)
Lemma getDiff_same (a : IModulesByPath) : getDiff a a = ∅.
Proof.
  apply map_eq. intros p. rewrite getDiff_lookup, lookup_empty.
  destruct (a !! p) as [e|]; [|done]. by rewrite decide_True.
Qed.

(** No emission when the baseline is the snapshot. *)
Lemma current_baseline_is_quiet initialRender this :
  serverPreview this = true →
  lastModules (lastSent this) = getModulesToSend this →
  ∀ e, e ∈ effects (executeCodeImmediately initialRender this) → is_socket_emit e = false.
Proof.
  intros Hserver Hbase e He.
  destruct (synchronises initialRender this) eqn:Hsync.
  - rewrite executeCodeImmediately_server_sync' in He by done.
    rewrite Hbase, getDiff_same in He.
    rewrite (bool_decide_eq_false_2 (∅ ≠ ∅)) in He by (intros Hne; by apply Hne).
    cbn [effects andb] in He. rewrite app_nil_r in He.
    by apply elem_of_clearing in He as [_ ?].
  - rewrite executeCodeImmediately_reload in He by done. cbn [effects] in He.
    apply elem_of_app in He as [He|He].
    + assert (He' : e ∈ clearing this ++ resetting this)
        by (apply elem_of_app; by left).
      by apply elem_of_clearing in He' as [_ ?].
    + apply elem_of_cons in He as [->|He]; [done|]. by apply elem_of_nil in He.
Qed.

(** X14.  A server preview whose baseline is the current snapshot
    emits nothing on the socket; so it is for the first request after
    the constructor, the props being the same. *)
Theorem unchanged_snapshot_emits_nothing (initialRender : bool) (this : BasePreview) :
  (serverPreview this = true →
   lastModules (lastSent this) = getModulesToSend this →
   ∀ e, e ∈ effects (executeCodeImmediately initialRender this) → is_socket_emit e = false)
  ∧ ∀ pr e, e ∈ effects (executeCodeImmediately initialRender (construct true pr)) →
            is_socket_emit e = false.
Proof.
  split; [apply current_baseline_is_quiet|].
  intros pr e. apply current_baseline_is_quiet; [done|].
  unfold construct. cbn [lastSent lastModules with_lastModules].
  by apply getModulesToSend_props.
Qed.

(** X15.  Once a synchronising request found the container started,
    the next request, the props being the same, emits nothing on the
    socket. *)
Theorem request_after_started_sync_is_quiet (first next : bool) (this : BasePreview) :
  serverPreview this = true →
  synchronises first this = true →
  containerStatus (props this) = Some sandbox_started →
  let this' := final (executeCodeImmediately first this) in
  lastModules (lastSent this') = getModulesToSend this'
  ∧ ∀ e, e ∈ effects (executeCodeImmediately next this') → is_socket_emit e = false.
Proof.
  intros Hserver Hsync Hstarted this'.
  assert (Hthis : this' = with_lastModules (getModulesToSend this) this).
  { unfold this'. rewrite executeCodeImmediately_server_sync' by done.
    by rewrite bool_decide_eq_true_2. }
  assert (Hbase : lastModules (lastSent this') = getModulesToSend this').
  { rewrite Hthis. cbn [with_lastModules lastSent lastModules].
    by apply getModulesToSend_props. }
  split; [done|].
  apply current_baseline_is_quiet; [|done]. by rewrite Hthis.
Qed.

(** X16.  Until the container is reported started, a synchronising
    request of a server preview leaves the instance as it was: asked
    again, it does the same again. *)
Theorem request_before_start_is_repeated (initialRender : bool) (this : BasePreview) :
  serverPreview this = true →
  synchronises initialRender this = true →
  containerStatus (props this) ≠ Some sandbox_started →
  let r := executeCodeImmediately initialRender this in
  final r = this ∧ executeCodeImmediately initialRender (final r) = r.
Proof.
  intros Hserver Hsync Hstatus r.
  assert (Hfinal : final r = this).
  { unfold r. rewrite executeCodeImmediately_server_sync' by done.
    by rewrite bool_decide_eq_false_2. }
  split; [done|]. by rewrite Hfinal.
Qed.

(** X17.  A browser preview that synchronises and knows which module
    to render sends the whole snapshot in one [compile] message, the
    last thing it does, and is left as it was. *)
Theorem browser_request_compiles_snapshot (initialRender : bool) (this : BasePreview) :
  serverPreview this = false →
  synchronises initialRender this = true →
  isInProjectView (props this) = true ∨ is_Some (currentModule (props this)) →
  let r := executeCodeImmediately initialRender this in
  final r = this ∧ throws r = false
  ∧ ∃ before c,
      effects r = before ++ [Dispatch (CompileMessage c)]
      ∧ compile_modules c = getModulesToSend this
      ∧ compile_version c = 3
      ∧ ∀ e, e ∈ before → is_compile e = false ∧ is_socket_emit e = false.
Proof.
  intros Hserver Hsync Hentry r. unfold r.
  rewrite executeCodeImmediately_browser_sync by done.
  destruct (isInProjectView (props this)) eqn:Hview.
  - cbn [final throws effects]. split; [done|]. split; [done|].
    eexists (clearing this ++ resetting this), _.
    split; [by rewrite app_assoc|]. split; [done|]. split; [done|].
    intros e He. by apply (elem_of_clearing this).
  - destruct Hentry as [?|[m Hm]]; [done|]. rewrite Hm.
    cbn [final throws effects]. split; [done|]. split; [done|].
    eexists (clearing this ++ resetting this), _.
    split; [by rewrite app_assoc|]. split; [done|]. split; [done|].
    intros e He. by apply (elem_of_clearing this).
Qed.

(** X18.  An execution request throws in one case only: a browser
    preview that synchronises, in module view, without a current
    module; no [compile] message is sent then.  A frame message makes
    the component throw in no other case. *)
Theorem request_throws_only_without_current_module (initialRender : bool)
    (this : BasePreview) :
  let lost :=
    serverPreview this = false ∧ isInProjectView (props this) = false
    ∧ currentModule (props this) = None in
  (throws (executeCodeImmediately initialRender this) = true
   ↔ synchronises initialRender this = true ∧ lost)
  ∧ (throws (executeCodeImmediately initialRender this) = true →
     ∀ e, e ∈ effects (executeCodeImmediately initialRender this) → is_compile e = false)
  ∧ ∀ data source, throws (handleMessage data source this) = true → lost.
Proof.
  intros lost.
  assert (Hthrows : ∀ b, throws (executeCodeImmediately b this) = true
                         ↔ synchronises b this = true ∧ lost).
  { intros b. unfold lost.
    destruct (synchronises b this) eqn:Hsync.
    - destruct (serverPreview this) eqn:Hserver.
      + rewrite executeCodeImmediately_server_sync' by done. naive_solver.
      + rewrite executeCodeImmediately_browser_sync by done.
        destruct (isInProjectView (props this)); [naive_solver|].
        destruct (currentModule (props this)); naive_solver.
    - rewrite executeCodeImmediately_reload by done. naive_solver. }
  split; [apply Hthrows|]. split.
  - intros Hthrown e He. apply Hthrows in Hthrown as (Hsync & Hserver & Hview & Hmod).
    rewrite executeCodeImmediately_browser_sync, Hview, Hmod in He by done.
    cbn [effects] in He. by apply elem_of_clearing in He as [? ?].
  - intros data source Hthrown.
    assert (Hsome : ∃ b, throws (executeCodeImmediately b this) = true).
    { clear Hthrows. subst lost. destruct this as [pr st sp ls sock].
      unfold handleMessage, mbind, M_bind, get in Hthrown.
      destruct data as [[cs msg]|]; [|done]. destruct cs; [|done].
      cbn [codesandbox body] in Hthrown.
      destruct msg, source, sock; simpl in Hthrown; try done;
        unfold mbind, M_bind, perform, when, setState, get, put, socket_emit, mret, M_ret
          in Hthrown; simpl in Hthrown;
        repeat match type of Hthrown with
          | context [if ?b then _ else _] => destruct b; simpl in Hthrown
          end; try done;
        match type of Hthrown with
        | context [executeCodeImmediately ?b ?t] =>
            exists b; by destruct (executeCodeImmediately b t)
        end. }
    destruct Hsome as [b Hb]. by apply Hthrows in Hb as [_ ?].
Qed.

(** Telling an effect from the ones of the clearing. *)
Ltac not_clearing :=
  let Hin := fresh "Hin" in
  intros Hin;
  repeat (apply elem_of_cons in Hin as [Hin|Hin]; [discriminate Hin|]);
  by apply elem_of_nil in Hin.

(** X19.  Every execution request starts with the clearing: of the
    console, for a browser preview with [clearConsoleEnabled] only,
    and of the errors; nothing of it is done a second time, also when
    the request throws. *)
Theorem requests_clear_errors_first (initialRender : bool) (this : BasePreview) :
  ∃ rest,
    effects (executeCodeImmediately initialRender this) = clearing this ++ rest
    ∧ Forall (λ e, e ∉ [ConsoleClear; Dispatch ClearConsole; Dispatch ErrorClear;
                        OnClearErrors]) rest.
Proof.
  destruct (synchronises initialRender this) eqn:Hsync.
  - destruct (serverPreview this) eqn:Hserver.
    + rewrite executeCodeImmediately_server_sync' by done. cbn [effects].
      eexists. split; [done|]. unfold resetting.
      destruct (isInProjectView _), (_ && _); repeat constructor; not_clearing.
    + rewrite executeCodeImmediately_browser_sync by done. unfold resetting.
      destruct (isInProjectView _); [|destruct (currentModule _)]; cbn [effects];
        (eexists; split; [done|]); repeat constructor; not_clearing.
  - rewrite executeCodeImmediately_reload by done. cbn [effects].
    eexists. split; [done|]. repeat constructor. not_clearing.
Qed.

(** The instance a frame message leaves. *)
Lemma handleMessage_final data source this :
  final (handleMessage data source this) =
    match data with
    | Some data =>
        if codesandbox data then
          match body data, source with
          | Initialized, true => final (executeCodeImmediately true this)
          | Render, _ => final (executeCodeImmediately false this)
          | UrlChange url action diff, _ =>
              with_state (commitUrl url action diff (state this)) this
          | Done, _ => with_state (set_showScreenshot false (state this)) this
          | _, _ => this
          end
        else this
    | None => this
    end.
Proof.
  destruct this as [pr st sp ls sock].
  unfold handleMessage, mbind, M_bind, get.
  destruct data as [[cs msg]|]; [|done]. destruct cs; [|done].
  cbn [codesandbox body].
  destruct msg, source, sock; simpl; try done;
    unfold mbind, M_bind, perform, when, setState, get, put, socket_emit, mret, M_ret;
    simpl;
    repeat match goal with
      | |- context [if ?b then _ else _] => destruct b; simpl
      end; try done;
    match goal with
    | |- context [executeCodeImmediately ?b ?t] =>
        by destruct (executeCodeImmediately b t)
    end.
Qed.

Lemma executeCodeImmediately_untouched initialRender this :
  untouched this (final (executeCodeImmediately initialRender this))
  ∧ (serverPreview this = false →
     lastSent (final (executeCodeImmediately initialRender this)) = lastSent this).
Proof.
  destruct (synchronises initialRender this) eqn:Hsync.
  - destruct (serverPreview this) eqn:Hserver.
    + rewrite executeCodeImmediately_server_sync' by done. cbn [final].
      by case_bool_decide.
    + rewrite executeCodeImmediately_browser_sync by done.
      by destruct (isInProjectView _); [|destruct (currentModule _)].
  - by rewrite executeCodeImmediately_reload by done.
Qed.

(** X20.  Neither a frame message nor an execution request changes the
    props, the socket or the kind of the preview, and those of a
    browser preview leave the baseline alone. *)
Theorem methods_keep_props_and_socket (this : BasePreview) (data : option Envelope)
    (source initialRender : bool) :
  untouched this (final (handleMessage data source this))
  ∧ untouched this (final (executeCodeImmediately initialRender this))
  ∧ (serverPreview this = false →
     lastSent (final (handleMessage data source this)) = lastSent this
     ∧ lastSent (final (executeCodeImmediately initialRender this)) = lastSent this).
Proof.
  pose proof (executeCodeImmediately_untouched true this) as [Ht Ht'].
  pose proof (executeCodeImmediately_untouched false this) as [Hf Hf'].
  pose proof (executeCodeImmediately_untouched initialRender this) as [Hi Hi'].
  rewrite handleMessage_final.
  split; [|split; [done|]].
  - destruct data as [[cs msg]|]; [|done]. destruct cs; [|done].
    cbn [codesandbox body]. by destruct msg, source.
  - intros Hserver. split; [|by apply Hi'].
    destruct data as [[cs msg]|]; [|done]. destruct cs; [|done].
    cbn [codesandbox body]. destruct msg, source; try done; auto.
Qed.

(** A message that is missing, that lacks the [codesandbox]
    mark, that says [initialized] without a source, or that has an
    unknown type, is ignored. *)
Lemma unrelated_messages_are_ignored (this : BasePreview) (source : bool)
    (message : FrameMessage) (type : string) :
  silent this (handleMessage None source this)
  ∧ silent this (handleMessage (Some {| codesandbox := false; body := message |}) source this)
  ∧ silent this (handleMessage (Some {| codesandbox := true; body := Initialized |}) false this)
  ∧ silent this (handleMessage (Some {| codesandbox := true; body := Other type |}) source this).
Proof. unfold silent. by destruct source. Qed.

(** X21.  When the container has started, the deferred
    synchronisation of a server preview is not turned into a reload
    by [forceRefresh]: the baseline follows the status, a pending diff
    is emitted if there is a socket, and the history is refreshed. *)
Theorem started_sync_always_synchronises (this : BasePreview) :
  serverPreview this = true →
  let r := startedSync this in
  let snapshot := getModulesToSend this in
  let diff := getDiff (lastModules (lastSent this)) snapshot in
  throws r = false
  ∧ state (final r) = refreshed (state this)
  ∧ lastModules (lastSent (final r))
    = (if bool_decide (containerStatus (props this) = Some sandbox_started)
       then snapshot else lastModules (lastSent this))
  ∧ (diff ≠ ∅ → is_Some (socket this) →
     SocketEmit "sandbox:update" (Updates diff) ∈ effects r).
Proof.
  intros Hserver r snapshot diff.
  assert (Hsync : synchronises true this = true)
    by (unfold synchronises; by rewrite andb_false_r).
  assert (Hr : r = Returned ()
            (with_state (refreshed (state this))
               (if bool_decide (containerStatus (props this) = Some sandbox_started)
                then with_lastModules snapshot this else this))
            (effects (executeCodeImmediately true this)
               ++ [SetFrameSrc (if decide (refreshUrl (state this) = "")
                                then defaultUrl this else refreshUrl (state this))])).
  { unfold r, startedSync, mbind, M_bind.
    rewrite executeCodeImmediately_server_sync' by done. fold snapshot diff.
    unfold handleRefresh, setState, mbind, M_bind, get, perform, put. cbn [effects].
    by case_bool_decide. }
  rewrite Hr. cbn [throws final effects]. split; [done|]. split; [done|]. split.
  - by case_bool_decide.
  - intros Hdiff Hsock.
    rewrite executeCodeImmediately_server_sync' by done. fold snapshot diff.
    rewrite (bool_decide_eq_true_2 (diff ≠ ∅)) by done.
    rewrite (bool_decide_eq_true_2 (is_Some (socket this))) by done.
    cbn [effects andb]. rewrite !elem_of_app. left. right. right.
    apply list_elem_of_here.
Qed.

End RequestFacts.

(** ** The token cache *)

Section SSETokenFacts.

Import SSEToken.

(** What a call that makes the request returns. *)
Lemma retrieveSSEToken_fetching (ls : LocalStorage) (now : Z) (response : Response) :
  fetched (retrieveSSEToken ls now response) = true →
  is_Some (jwt ls)
  ∧ retrieveSSEToken ls now response =
      match response with
      | Answered t =>
          {| token := t;
             storage := {| jwt := jwt ls;
                           sse := Some {| key := t; timestamp := now |} |};
             fetched := true |}
      | Rejected => {| token := None; storage := ls; fetched := true |}
      end.
Proof.
  unfold retrieveSSEToken.
  destruct (jwt ls) as [j|]; [|done]. intros Hf. split; [by eexists|].
  destruct (sse ls) as [k|]; [|done].
  by destruct (usable (key k) && _).
Qed.

(** X22.  The request is made exactly when there is a [jwt] and no
    usable key younger than a day is kept; the storage changes only
    when a request is answered. *)
Theorem token_is_fetched_unless_cached (ls : LocalStorage) (now : Z) (response : Response) :
  let r := retrieveSSEToken ls now response in
  (fetched r = true
   ↔ is_Some (jwt ls)
     ∧ ¬ ∃ k, sse ls = Some k ∧ usable (key k) = true ∧ now - timestamp k < MAX_SSE_AGE)
  ∧ (storage r ≠ ls → fetched r = true ∧ ∃ t, response = Answered t).
Proof.
  intros r. split.
  - unfold r, retrieveSSEToken.
    destruct (jwt ls) as [j|] eqn:Hj.
    2:{ cbn. split; [done|]. by intros [[? ?] _]. }
    assert (Hreq : fetched match response with
                           | Answered t =>
                               {| token := t;
                                  storage := {| jwt := Some j;
                                                sse := Some {| key := t; timestamp := now |} |};
                                  fetched := true |}
                           | Rejected => {| token := None; storage := ls; fetched := true |}
                           end = true) by by destruct response.
    destruct (sse ls) as [k|] eqn:Hk.
    + destruct (usable (key k)) eqn:Hu; cbn [andb].
      * case_bool_decide as Hage.
        -- cbn. split; [done|]. intros [_ Hno]. destruct Hno. by exists k.
        -- rewrite Hreq. split; [|done]. intros _. split; [by eexists|].
           intros (k' & Hk' & _ & Hfresh). by simplify_eq.
      * rewrite Hreq. split; [|done]. intros _. split; [by eexists|].
        intros (k' & Hk' & Hu' & _). simplify_eq. congruence.
    + rewrite Hreq. split; [|done]. intros _. split; [by eexists|].
      by intros (k' & Hk' & _).
  - intros Hstorage.
    assert (Hf : fetched r = true).
    { destruct (fetched r) eqn:Hf; [done|]. destruct Hstorage.
      unfold r, retrieveSSEToken in *.
      destruct (jwt ls); [|done]. destruct (sse ls) as [k|].
      - destruct (usable (key k) && _); [done|]. by destruct response.
      - by destruct response. }
    split; [done|].
    apply retrieveSSEToken_fetching in Hf as [_ Hr]. fold r in Hr.
    destruct response as [|t]; [|by exists t]. destruct Hstorage. by rewrite Hr.
Qed.

(** X23.  A token that was fetched is kept: for a day from then on it
    is returned without a request, and the storage stays as it is. *)
Theorem fetched_token_is_cached (ls : LocalStorage) (now later : Z) (t : string)
    (response : Response) :
  let first := retrieveSSEToken ls now (Answered (Some t)) in
  fetched first = true →
  t ≠ "" →
  later - now < MAX_SSE_AGE →
  token first = Some t
  ∧ retrieveSSEToken (storage first) later response
    = {| token := Some t; storage := storage first; fetched := false |}.
Proof.
  intros first Hfetched Ht Hlater.
  apply retrieveSSEToken_fetching in Hfetched as [[j Hj] Hfirst]. fold first in Hfirst.
  rewrite Hfirst. split; [done|].
  unfold retrieveSSEToken. cbn [storage jwt sse key timestamp usable]. rewrite Hj.
  rewrite (decide_False (P := (t = ""))) by done.
  by rewrite bool_decide_eq_true_2.
Qed.

Lemma fetched_token_is_cached_witness :
  retrieveSSEToken
    (storage (retrieveSSEToken {| jwt := Some "user"; sse := None |} 1000 (Answered (Some "t1"))))
    5000 Rejected
  = {| token := Some "t1";
       storage := storage (retrieveSSEToken {| jwt := Some "user"; sse := None |} 1000
                             (Answered (Some "t1")));
       fetched := false |}.
Proof.
  apply (fetched_token_is_cached {| jwt := Some "user"; sse := None |} 1000 5000 "t1" Rejected);
    [reflexivity|discriminate|reflexivity].
Defined.

(** X24.  A failure is not kept: after a rejected request the storage
    is as before, and after an answer without a token the next call
    asks again. *)
Theorem failed_fetch_is_not_cached (ls : LocalStorage) (now later : Z)
    (response : Response) :
  (fetched (retrieveSSEToken ls now Rejected) = true →
   retrieveSSEToken ls now Rejected = {| token := None; storage := ls; fetched := true |})
  ∧ (fetched (retrieveSSEToken ls now (Answered None)) = true →
     token (retrieveSSEToken ls now (Answered None)) = None
     ∧ fetched (retrieveSSEToken (storage (retrieveSSEToken ls now (Answered None)))
                  later response) = true).
Proof.
  split.
  - by intros [_ Hr]%retrieveSSEToken_fetching.
  - intros [[j Hj] Hr]%retrieveSSEToken_fetching. rewrite Hr. split; [done|].
    unfold retrieveSSEToken. cbn [storage jwt sse key usable andb]. rewrite Hj.
    by destruct response.
Qed.

Lemma failed_fetch_is_not_cached_witness :
  retrieveSSEToken {| jwt := Some "user"; sse := None |} 1000 Rejected
  = {| token := None; storage := {| jwt := Some "user"; sse := None |}; fetched := true |}.
Proof.
  destruct (failed_fetch_is_not_cached {| jwt := Some "user"; sse := None |} 1000 2000 Rejected)
    as [Hrejected _].
  by apply Hrejected.
Defined.

End SSETokenFacts.

(** ** The socket's listeners *)

Section ConnectionFacts.

Context `{Collaborators}.

Import SnapshotDiffer NavigationHistory.

(** X25.  A [disconnect] is reported exactly when the close was not
    the component's own, the status callback is there, the manager is
    reported connected and the container is not reported hibernated;
    the report is followed by the [codesandbox:sse:disconnect]
    message, and the instance is not changed. *)
Theorem disconnect_is_reported_iff (c : Connection) :
  let reported :=
    localClose c = false ∧ setSSEManagerStatus c = true
    ∧ managerStatus c = Some manager_connected
    ∧ containerStatus (props (preview c)) ≠ Some container_hibernated in
  (SetSSEManagerStatus manager_disconnected ∈ (onDisconnect c).2 ↔ reported)
  ∧ (reported →
     (onDisconnect c).2 = [SetSSEManagerStatus manager_disconnected; DispatchDisconnect])
  ∧ (¬ reported → (onDisconnect c).2 = [])
  ∧ preview (onDisconnect c).1 = preview c.
Proof.
  intros reported. subst reported. unfold onDisconnect.
  assert (Hquiet : ∀ c' : Connection,
            ¬ (localClose c = false ∧ setSSEManagerStatus c = true
               ∧ managerStatus c = Some manager_connected
               ∧ containerStatus (props (preview c)) ≠ Some container_hibernated) →
            preview c' = preview c →
            (SetSSEManagerStatus manager_disconnected ∈ (c', @nil Command).2
             ↔ localClose c = false ∧ setSSEManagerStatus c = true
               ∧ managerStatus c = Some manager_connected
               ∧ containerStatus (props (preview c)) ≠ Some container_hibernated)
            ∧ (localClose c = false ∧ setSSEManagerStatus c = true
               ∧ managerStatus c = Some manager_connected
               ∧ containerStatus (props (preview c)) ≠ Some container_hibernated →
               (c', @nil Command).2
               = [SetSSEManagerStatus manager_disconnected; DispatchDisconnect])
            ∧ (¬ (localClose c = false ∧ setSSEManagerStatus c = true
                  ∧ managerStatus c = Some manager_connected
                  ∧ containerStatus (props (preview c)) ≠ Some container_hibernated) →
               (c', @nil Command).2 = [])
            ∧ preview (c', @nil Command).1 = preview c).
  { intros c' Hno Hp. cbn [fst snd]. split; [split|split; [|split]]; try done.
    by intros Hin%elem_of_nil. }
  destruct (localClose c) eqn:Hlocal.
  { apply Hquiet; [|done]. by intros (? & _). }
  destruct (setSSEManagerStatus c) eqn:Hcallback; cbn [andb].
  2:{ apply Hquiet; [|done]. by intros (_ & ? & _). }
  destruct (decide (managerStatus c = Some manager_connected)) as [Hm|Hm].
  2:{ rewrite (bool_decide_eq_false_2 _ Hm). cbn [andb].
      apply Hquiet; [|done]. by intros (_ & _ & ? & _). }
  rewrite (bool_decide_eq_true_2 _ Hm). cbn [andb].
  destruct (decide (containerStatus (props (preview c)) ≠ Some container_hibernated))
    as [Hc|Hc].
  - rewrite (bool_decide_eq_true_2 _ Hc). cbn [fst snd].
    split; [split|split; [|split]]; try done.
    + intros _. apply list_elem_of_here.
    + intros Hno. by destruct Hno.
  - rewrite (bool_decide_eq_false_2 _ Hc).
    apply Hquiet; [|done]. by intros (_ & _ & _ & ?).
Qed.

(** X26.  After [setupSSESockets] closed a socket that was there, the
    [disconnect] that follows reports nothing and only takes the mark
    of the component's own close away; the mark holds for that one
    [disconnect]. *)
Theorem own_close_is_not_reported (c : Connection) (timer : positive) :
  is_Some (socket (preview c)) →
  let c' := (setupSSESockets timer c).1 in
  (setupSSESockets timer c).2 = [Perform SocketClose; Defer Reopen]
  ∧ frameInitialized (state (preview c')) = false
  ∧ onDisconnect c' = (with_localClose false c', [])
  ∧ localClose (onDisconnect c').1 = false.
Proof.
  intros [sock Hsock] c'. unfold c', setupSSESockets. rewrite Hsock. done.
Qed.

(** X27.  The timeout set when the socket is created is the one kept,
    and the [connect] that follows clears it; the component is then
    without a timeout. *)
Theorem connect_clears_the_timeout (c : Connection) (timer : positive) :
  socket (preview c) = None →
  let result := handle_all c [Setup timer; Connected] in
  SetTimeout timer 3000 ConnectTimedOut ∈ result.2
  ∧ ClearTimeout timer ∈ result.2
  ∧ connectTimeout result.1 = None
  ∧ is_Some (socket (preview result.1)).
Proof.
  intros Hsock result. subst result. cbn [handle_all handle].
  unfold setupSSESockets. rewrite Hsock.
  cbn. repeat split; [| |by eexists].
  - apply list_elem_of_further, list_elem_of_here.
  - do 3 apply list_elem_of_further. apply list_elem_of_here.
Qed.

(** X28.  A timeout that is pending when [setupSSESockets] finds the
    socket there is not cleared: not by the reconnection, not when the
    socket is opened again with a timeout of its own, and not by the
    [connect] that follows, which clears the new one. *)
Theorem reconnect_keeps_pending_timeout (c : Connection) (pending timer again : positive) :
  is_Some (socket (preview c)) →
  connectTimeout c = Some pending →
  pending ≠ again →
  let result := handle_all c [Setup timer; Reopened again; Connected] in
  (ClearTimeout pending ∉ result.2)
  ∧ ClearTimeout again ∈ result.2
  ∧ connectTimeout result.1 = None.
Proof.
  intros [sock Hsock] Hpending Hne result. subst result. cbn [handle_all handle].
  unfold setupSSESockets. rewrite Hsock. cbn. split; [|split; [|done]].
  - intros Hin. destruct (setSSEManagerStatus c); cbn in Hin;
      repeat (apply elem_of_cons in Hin as [Hin|Hin]; [by simplify_eq|]);
      by apply elem_of_nil in Hin.
  - do 4 apply list_elem_of_further. apply list_elem_of_here.
Qed.

(** X29.  [sandbox:start] calls [onInitialized] only for a frame that
    is not initialized: a second [sandbox:start] in a row does not
    call it; after a [sandbox:stop] or a [sandbox:hibernate] the next
    one does, the prop being there. *)
Theorem start_initializes_once (c : Connection) :
  (Perform OnInitialized ∉ (onSandboxStart (onSandboxStart c).1).2)
  ∧ (onInitialized (props (preview c)) = true →
     Perform OnInitialized ∈ (onSandboxStart (onSandboxStop c).1).2
     ∧ Perform OnInitialized ∈ (onSandboxStart (onSandboxHibernate c).1).2).
Proof.
  unfold onSandboxStart, onSandboxStop, onSandboxHibernate, terminal.
  cbn. split.
  - intros Hin. destruct (setSSEContainerStatus c); cbn in Hin;
      repeat (apply elem_of_cons in Hin as [Hin|Hin]; [discriminate Hin|]);
      by apply elem_of_nil in Hin.
  - intros ->. cbn. split; apply list_elem_of_further, list_elem_of_here.
Qed.


(** A change to a browser sandbox opens or closes no socket and
    leaves the socket and the baseline it finds. *)
Lemma sandbox_change_to_browser_keeps_socket (timer : positive) (c : Connection) :
  let result := handleSandboxChange false timer c in
  serverPreview (preview result.1) = false
  ∧ socket (preview result.1) = socket (preview c)
  ∧ lastSent (preview result.1) = lastSent (preview c)
  ∧ localClose result.1 = localClose c
  ∧ ∃ url, result.2 = [ResetState; Perform (SetFrameSrc url)].
Proof. cbn. repeat split. by eexists. Qed.

(** A recoverable error of the container is reported to the
    notifications and changes nothing; an unrecoverable one is not
    reported there: it marks the error, takes the frame for not
    initialized and closes the socket. *)
Lemma sandbox_error_is_notified_or_fatal (this : BasePreview) (message : string) :
  (let r := onSandboxError message false this in
   reports_error r = true ∧ final r = this ∧ throws r = false
   ∧ SocketClose ∉ effects r)
  ∧ (is_Some (socket this) →
     let r := onSandboxError message true this in
     reports_error r = false ∧ throws r = false
     ∧ SocketClose ∈ effects r
     ∧ sseError (state (final r)) = true
     ∧ frameInitialized (state (final r)) = false
     ∧ untouched this (final r)).
Proof.
  split.
  - cbn. repeat split. intros Hin.
    repeat (apply elem_of_cons in Hin as [Hin|Hin]; [discriminate Hin|]).
    by apply elem_of_nil in Hin.
  - intros [sock Hsock]. destruct this as [pr st sp ls so]. simpl in Hsock. subst so.
    cbn. repeat split. apply list_elem_of_further, list_elem_of_here.
Qed.

End ConnectionFacts.

(** ** The further properties at the sample previews *)

Section MoreSampleRuns.

Import SnapshotDiffer NavigationHistory Samples MoreSamples.

Let request := @executeCodeImmediately collaborators.
Let snapshot_of_preview := @getModulesToSend collaborators.
Let edited := server_preview false (Some sandbox_started).

Lemma edited_diff_has_an_entry :
  getDiff (lastModules (lastSent edited)) (snapshot_of_preview edited) ≠ ∅.
Proof.
  intros Heq. apply (f_equal (λ m, m !! "/index.js")) in Heq.
  vm_compute in Heq. discriminate.
Qed.

Lemma getModulesToSend_has_package_json_witness :
  snapshot_of_preview browser_preview !! "/package.json"
  = Some (@package_json collaborators (a_sandbox "render()")).
Proof.
  destruct (@getModulesToSend_has_package_json collaborators browser_preview)
    as (_ & Hgenerated & _).
  apply Hgenerated. reflexivity.
Defined.

Lemma getModulesToSend_keyed_witness :
  getDiff ∅ (snapshot_of_preview browser_preview) = snapshot_of_preview browser_preview.
Proof.
  destruct (@getModulesToSend_keyed collaborators browser_preview) as [_ Hfull];
    [|exact Hfull].
  apply (bool_decide_unpack _). vm_compute. exact I.
Defined.

Lemma pending_diff_is_emitted_witness :
  ∃ before,
    effects (request false edited)
    = before ++ [SocketEmit "sandbox:update"
                   (Updates (getDiff (lastModules (lastSent edited))
                                     (snapshot_of_preview edited)))]
    ∧ ∀ e, e ∈ before → is_socket_emit e = false.
Proof.
  apply (@pending_diff_is_emitted collaborators false edited);
    [reflexivity|reflexivity|by eexists|apply edited_diff_has_an_entry].
Defined.

Lemma unchanged_snapshot_emits_nothing_witness :
  Forall (λ e, is_socket_emit e = false)
    (effects (request true (@construct collaborators true (some_props "render()" false None)))).
Proof.
  apply Forall_forall.
  destruct (@unchanged_snapshot_emits_nothing collaborators true
              (@construct collaborators true (some_props "render()" false None)))
    as [Hsame _].
  apply Hsame; reflexivity.
Defined.

Lemma request_after_started_sync_is_quiet_witness :
  Forall (λ e, is_socket_emit e = false)
    (effects (request false (final (request false edited)))).
Proof.
  apply Forall_forall.
  destruct (@request_after_started_sync_is_quiet collaborators false false edited)
    as [_ Hquiet]; [reflexivity..|].
  exact Hquiet.
Defined.

Lemma request_before_start_is_repeated_witness :
  final (request false (server_preview false None)) = server_preview false None.
Proof.
  destruct (@request_before_start_is_repeated collaborators false (server_preview false None))
    as [Hsame _]; [reflexivity|reflexivity|discriminate|].
  exact Hsame.
Defined.

Lemma browser_request_compiles_snapshot_witness :
  final (request false browser_preview) = browser_preview
  ∧ throws (request false browser_preview) = false.
Proof.
  destruct (@browser_request_compiles_snapshot collaborators false browser_preview)
    as (Hfinal & Hthrows & _); [reflexivity|reflexivity|by left|].
  split; [exact Hfinal|exact Hthrows].
Defined.

Lemma request_throws_only_without_current_module_witness :
  throws (request false moduleless_preview) = true
  ∧ Forall (λ e, is_compile e = false) (effects (request false moduleless_preview)).
Proof.
  destruct (@request_throws_only_without_current_module collaborators false
              moduleless_preview) as (Hiff & Hquiet & _).
  assert (Hthrown : throws (request false moduleless_preview) = true).
  { apply Hiff. repeat split. }
  split; [exact Hthrown|]. apply Forall_forall. exact (Hquiet Hthrown).
Defined.

Lemma methods_keep_props_and_socket_witness :
  lastSent (final (request false browser_preview)) = lastSent browser_preview.
Proof.
  destruct (@methods_keep_props_and_socket collaborators browser_preview None false false)
    as (_ & _ & Hbase).
  destruct (Hbase eq_refl) as [_ Hrequest]. exact Hrequest.
Defined.

Lemma started_sync_always_synchronises_witness :
  lastModules (lastSent (final (@startedSync collaborators
                                  (server_preview true (Some sandbox_started)))))
  = snapshot_of_preview (server_preview true (Some sandbox_started)).
Proof.
  destruct (@started_sync_always_synchronises collaborators
              (server_preview true (Some sandbox_started)) eq_refl)
    as (_ & _ & Hbase & _).
  exact Hbase.
Defined.

Lemma token_is_fetched_unless_cached_witness :
  SSEToken.fetched
    (SSEToken.retrieveSSEToken
       {| SSEToken.jwt := Some "user";
          SSEToken.sse := Some {| SSEToken.key := Some "old"; SSEToken.timestamp := 0 |} |}
       SSEToken.MAX_SSE_AGE SSEToken.Rejected) = true.
Proof.
  destruct (token_is_fetched_unless_cached
              {| SSEToken.jwt := Some "user";
                 SSEToken.sse := Some {| SSEToken.key := Some "old";
                                         SSEToken.timestamp := 0 |} |}
              SSEToken.MAX_SSE_AGE SSEToken.Rejected) as [Hiff _].
  apply Hiff. split; [by eexists|].
  intros (k & Hk & _ & Hfresh). injection Hk as <-. vm_compute in Hfresh. discriminate.
Defined.

Lemma disconnect_is_reported_iff_witness :
  (@onDisconnect collaborators (a_connection (Some sandbox_started))).2
  = [SetSSEManagerStatus manager_disconnected; DispatchDisconnect].
Proof.
  destruct (@disconnect_is_reported_iff collaborators (a_connection (Some sandbox_started)))
    as (_ & Hreported & _).
  apply Hreported. repeat split. discriminate.
Defined.

Lemma own_close_is_not_reported_witness :
  (@onDisconnect collaborators
     (@setupSSESockets collaborators 9%positive (a_connection (Some sandbox_started))).1).2
  = [].
Proof.
  destruct (@own_close_is_not_reported collaborators (a_connection (Some sandbox_started))
              9%positive) as (_ & _ & Hquiet & _); [by eexists|].
  by rewrite Hquiet.
Defined.

Lemma connect_clears_the_timeout_witness :
  ClearTimeout 9%positive
    ∈ (@handle_all collaborators unconnected [Setup 9%positive; Connected]).2.
Proof.
  destruct (@connect_clears_the_timeout collaborators unconnected 9%positive eq_refl)
    as (_ & Hcleared & _).
  exact Hcleared.
Defined.

Lemma reconnect_keeps_pending_timeout_witness :
  ClearTimeout 7%positive
    ∉ (@handle_all collaborators (a_connection None)
         [Setup 8%positive; Reopened 9%positive; Connected]).2.
Proof.
  destruct (@reconnect_keeps_pending_timeout collaborators (a_connection None)
              7%positive 8%positive 9%positive) as (Hkept & _);
    [by eexists|reflexivity|discriminate|].
  exact Hkept.
Defined.

Lemma start_initializes_once_witness :
  Perform OnInitialized
    ∈ (@onSandboxStart collaborators (@onSandboxStop collaborators watched_connection).1).2.
Proof.
  destruct (@start_initializes_once collaborators watched_connection) as [_ Hagain].
  destruct (Hagain eq_refl) as [Hstop _]. exact Hstop.
Defined.


End MoreSampleRuns.
